(** * AI energy and compute forecast model (energy_model.py)

    A shallow embedding of the scenario pipeline of [energy_model.py]:
    the three efficiency curves, the unit conversion, the CapEx,
    infrastructure, token and global-fraction estimators and
    [run_scenario].

    Numbers are the program's own: a Python [float] is an IEEE-754 binary64
    value, here Rocq's primitive [float], whose [+ - * /] round to nearest
    even exactly as CPython's do.  A Python [int] year is a [Z].  Python's
    true division raises [ZeroDivisionError] on a zero divisor, and a float
    power raises [OverflowError] when it overflows: both are modelled by the
    [result] type.  Dictionaries with a fixed key set are records; the
    energy mix, whose iteration order matters for [sum], is an association
    list in insertion order. *)

From Stdlib Require Import QArith Qabs Qpower.
From Stdlib Require Import ZArith PArith List String Bool Lia.
From Stdlib Require Import Floats.
Import ListNotations.
Local Close Scope Q_scope.

Set Warnings "-inexact-float".
Local Open Scope float_scope.

(** ** Python values and exceptions *)

Inductive exn : Type :=
| ZeroDivisionError
| OverflowError.

Inductive result (A : Type) : Type :=
| Ok (a : A)
| Raise (e : exn).

Arguments Ok {A} a.
Arguments Raise {A} e.

Definition bind {A B : Type} (m : result A) (k : A -> result B) : result B :=
  match m with
  | Ok a => k a
  | Raise e => Raise e
  end.

Notation "x <- m ;; k" := (bind m (fun x => k))
  (at level 61, m at next level, right associativity).

(** [a / b] on Python floats (floatobject.c, [float_div]): a zero divisor of
    either sign raises, anything else is the IEEE quotient. *)
Definition truediv (a b : float) : result float :=
  if b =? 0 then Raise ZeroDivisionError else Ok (a / b).

(** Conversion of an [int] to a [float]; exact below 2^53, which covers
    every use here (year offsets and small constants). *)
Definition float_of_int (n : Z) : float :=
  if (n <? 0)%Z then - of_uint63 (Uint63Axioms.of_Z (- n))
  else of_uint63 (Uint63Axioms.of_Z n).

(** [for y in range(start, start + n): acc = body(y, acc)], without and with
    a body that can raise. *)
Fixpoint range_fold {A : Type} (n : nat) (y : Z) (body : Z -> A -> A) (acc : A) : A :=
  match n with
  | O => acc
  | S n' => range_fold n' (y + 1)%Z body (body y acc)
  end.

Fixpoint range_foldM {A : Type} (n : nat) (y : Z) (body : Z -> A -> result A)
  (acc : A) : result A :=
  match n with
  | O => Ok acc
  | S n' => acc' <- body y acc ;; range_foldM n' (y + 1)%Z body acc'
  end.

(** Length of [range(start, stop)]. *)
Definition range_len (start stop : Z) : nat := Z.to_nat (stop - start).

(** [scipy.interpolate.interp1d(x, y, kind='linear', fill_value='extrapolate')]
    on two knots, evaluated at an integer: with [fill_value='extrapolate'] the
    interpolant is scipy's [_call_linear], and with two knots every argument
    falls in the one segment, so the value is
    [slope * (x_new - x_lo) + y_lo] with [slope = (y_hi - y_lo) / (x_hi - x_lo)],
    computed in binary64 in this order. *)
Definition interp1d_linear (x_lo x_hi : Z) (y_lo y_hi : float) (x_new : Z) : float :=
  let slope := (y_hi - y_lo) / float_of_int (x_hi - x_lo) in
  slope * (float_of_int x_new - float_of_int x_lo) + y_lo.

(** ** Base constants *)

Definition BASE_YEAR : Z := 2024.
Definition H100_FLOPS : float := 2e15.

Definition WORLD_ELECTRICITY_2024 : float := 35.2e12.
Definition WORLD_GDP_2024 : float := 111e12.
Definition WORLD_FINAL_ENERGY_2024 : float := 180e12.

Definition TRANSFORMERS_PER_MW : float := 0.5.
Definition SWITCHGEAR_PER_MW : float := 2.0.
Definition PV_MODULES_PER_MW_SOLAR : float := 4000.
Definition BATTERIES_MWH_PER_MW_SOLAR : float := 4.
Definition TURBINES_PER_MW_GAS : float := 1.0.

Definition GLOBAL_TRANSFORMER_PRODUCTION : float := 10000.
Definition GLOBAL_SWITCHGEAR_PRODUCTION : float := 50000.
Definition GLOBAL_PV_MODULE_PRODUCTION : float := 1e9.
Definition GLOBAL_BATTERY_PRODUCTION : float := 500.
Definition GLOBAL_TURBINE_PRODUCTION : float := 5000.

(** ** Efficiency curves *)

Definition moores_law (year : Z) : float :=
  if (year <=? BASE_YEAR)%Z then 1.0
  else
    let interp_func := interp1d_linear 2025 2040 1.35 1.25 in
    range_fold (range_len (BASE_YEAR + 1) (year + 1)) (BASE_YEAR + 1)%Z
      (fun y cumulative =>
         let yr_growth :=
           if (y >=? 2040)%Z then 1.25 else interp_func (Z.min y 2040) in
         cumulative * yr_growth)
      1.0.

Definition power_efficiency (year : Z) : result float :=
  if (year <=? 2024)%Z then Ok 1000.0
  else
    let base_watts := 1000.0 in
    if (year =? 2025)%Z then Ok base_watts
    else
      let interp_func := interp1d_linear 2025 2040 1.3 1.2 in
      range_foldM (range_len 2026 (year + 1)) 2026%Z
        (fun y watts =>
           let yr_improvement :=
             if (y >=? 2040)%Z then 1.2 else interp_func (Z.min y 2040) in
           truediv watts yr_improvement)
        base_watts.

Definition cost_efficiency (year : Z) : result float :=
  if (year <=? 2024)%Z then Ok 24000.0
  else
    let base_cost := 24000.0 in
    if (year =? 2025)%Z then Ok base_cost
    else
      let interp_func := interp1d_linear 2025 2040 1.3 1.2 in
      range_foldM (range_len 2026 (year + 1)) 2026%Z
        (fun y cost =>
           let yr_improvement :=
             if (y >=? 2040)%Z then 1.2 else interp_func (Z.min y 2040) in
           truediv cost yr_improvement)
        base_cost.

(** ** Result records *)

Record ComputeInfo : Type := {
  h100e_count : float;
  watts_per_h100e : float;
  total_flops : float;
  flops_per_h100e : float
}.

Record CapEx : Type := {
  total_capex : float;
  compute_capex : float;
  non_compute_capex : float;
  cost_per_h100e : float;
  capex_per_watt : float
}.

Record Infrastructure : Type := {
  transformers : float;
  switchgear : float;
  pv_modules : float;
  batteries_mwh : float;
  turbines : float;
  total_mw : float;
  solar_mw_capacity : float;
  gas_mw : float
}.

Record TokenOutput : Type := {
  tokens_per_second : float;
  annual_tokens : float;
  effective_h100e : float
}.

Record GlobalFractions : Type := {
  electricity_fraction : float;
  final_energy_fraction : float;
  gdp_fraction : float;
  transformer_fraction : float;
  switchgear_fraction : float;
  pv_fraction : float;
  battery_fraction : float;
  turbine_fraction : float
}.

(** The energy mix: a [Dict[str, float]] in insertion order. *)
Definition EnergyMix : Type := list (string * float).

(** [d.get(key, default)]. *)
Fixpoint dict_get (d : EnergyMix) (key : string) (default : float) : float :=
  match d with
  | [] => default
  | (k, v) :: d' => if String.eqb k key then v else dict_get d' key default
  end.

(** [sum(d.values())]: left to right from the integer 0. *)
Definition dict_sum (d : EnergyMix) : float :=
  fold_left (fun acc kv => acc + snd kv) d 0.

(** [{k: v / total for k, v in d.items()}]. *)
Fixpoint dict_div (d : EnergyMix) (total : float) : result EnergyMix :=
  match d with
  | [] => Ok []
  | (k, v) :: d' =>
      v' <- truediv v total ;;
      rest <- dict_div d' total ;;
      Ok ((k, v') :: rest)
  end.

Record Scenario : Type := {
  s_watts : float;
  s_year : Z;
  s_energy_mix : EnergyMix;
  s_compute : ComputeInfo;
  s_capex : CapEx;
  s_infrastructure : Infrastructure;
  s_tokens : TokenOutput;
  s_global_fractions : GlobalFractions
}.

(** ** Core calculation functions *)

Definition watts_to_h100e (watts : float) (year : Z) : result ComputeInfo :=
  watts_per_h100e <- power_efficiency year ;;
  h100e_count <- truediv watts watts_per_h100e ;;
  let moores_factor := moores_law year in
  let flops_per_h100e := H100_FLOPS * moores_factor in
  let total_flops := h100e_count * flops_per_h100e in
  Ok {| h100e_count := h100e_count;
        watts_per_h100e := watts_per_h100e;
        total_flops := total_flops;
        flops_per_h100e := flops_per_h100e |}.

Definition calculate_infrastructure (watts : float) (energy_mix : EnergyMix)
  : result Infrastructure :=
  mw <- truediv watts 1e6 ;;
  let transformers := mw * TRANSFORMERS_PER_MW in
  let switchgear := mw * SWITCHGEAR_PER_MW in
  let solar_fraction := dict_get energy_mix "solar" 0.0 in
  let solar_mw := mw * solar_fraction in
  let solar_capacity_needed := solar_mw * 4 in
  let pv_modules := solar_capacity_needed * PV_MODULES_PER_MW_SOLAR in
  let batteries_mwh := solar_capacity_needed * BATTERIES_MWH_PER_MW_SOLAR in
  let gas_fraction := dict_get energy_mix "gas" 0.0 in
  let gas_mw := mw * gas_fraction in
  let turbines := gas_mw * TURBINES_PER_MW_GAS in
  Ok {| transformers := transformers;
        switchgear := switchgear;
        pv_modules := pv_modules;
        batteries_mwh := batteries_mwh;
        turbines := turbines;
        total_mw := mw;
        solar_mw_capacity := solar_capacity_needed;
        gas_mw := gas_mw |}.

(** The keyword argument [utilization = 0.5] is an [option]: [None] is a call
    that leaves it out. *)
Definition estimate_token_output (h100e_count : float) (utilization : option float)
  : TokenOutput :=
  let utilization := match utilization with Some u => u | None => 0.5 end in
  let tokens_per_second_per_h100e := 10000 in
  let effective_h100e := h100e_count * utilization in
  let tokens_per_second := effective_h100e * tokens_per_second_per_h100e in
  let seconds_per_year := 365.25 * 24 * 3600 in
  let annual_tokens := tokens_per_second * seconds_per_year in
  {| tokens_per_second := tokens_per_second;
     annual_tokens := annual_tokens;
     effective_h100e := effective_h100e |}.

Definition calculate_global_fractions (watts capex : float)
  (infrastructure : Infrastructure) : result GlobalFractions :=
  let annual_energy := watts * 365.25 * 24 in
  electricity_fraction <- truediv annual_energy WORLD_ELECTRICITY_2024 ;;
  final_energy_fraction <- truediv annual_energy WORLD_FINAL_ENERGY_2024 ;;
  gdp_fraction <- truediv capex WORLD_GDP_2024 ;;
  transformer_fraction <-
    truediv (transformers infrastructure) GLOBAL_TRANSFORMER_PRODUCTION ;;
  switchgear_fraction <-
    truediv (switchgear infrastructure) GLOBAL_SWITCHGEAR_PRODUCTION ;;
  pv_fraction <- truediv (pv_modules infrastructure) GLOBAL_PV_MODULE_PRODUCTION ;;
  battery_fraction <-
    truediv (batteries_mwh infrastructure) (GLOBAL_BATTERY_PRODUCTION * 1000) ;;
  turbine_fraction <- truediv (turbines infrastructure) GLOBAL_TURBINE_PRODUCTION ;;
  Ok {| electricity_fraction := electricity_fraction;
        final_energy_fraction := final_energy_fraction;
        gdp_fraction := gdp_fraction;
        transformer_fraction := transformer_fraction;
        switchgear_fraction := switchgear_fraction;
        pv_fraction := pv_fraction;
        battery_fraction := battery_fraction;
        turbine_fraction := turbine_fraction |}.

(** The energy-mix normalisation at the head of [run_scenario]. *)
Definition normalize_mix (energy_mix : EnergyMix) : result EnergyMix :=
  let total := dict_sum energy_mix in
  if 0 <? total then dict_div energy_mix total else Ok energy_mix.

Section Pipeline.

(** [x ** n] for a float [x] and an int [n] is the C library's [pow] behind
    CPython's [float_pow]; its last bit is the library's business, so the
    pipeline takes it as a parameter. *)
Variable float_pow : float -> Z -> result float.

Definition calculate_capex (watts : float) (year : Z) : result CapEx :=
  compute_info <- watts_to_h100e watts year ;;
  cost_per_h100e <- cost_efficiency year ;;
  let compute_capex := h100e_count compute_info * cost_per_h100e in
  p <- float_pow 1.1 (year - 2025) ;;
  let non_compute_ratio := 0.5 * p in
  let non_compute_capex := compute_capex * non_compute_ratio in
  let total_capex := compute_capex + non_compute_capex in
  capex_per_watt <- truediv total_capex watts ;;
  Ok {| total_capex := total_capex;
        compute_capex := compute_capex;
        non_compute_capex := non_compute_capex;
        cost_per_h100e := cost_per_h100e;
        capex_per_watt := capex_per_watt |}.

Definition run_scenario (watts : float) (year : Z) (energy_mix : EnergyMix)
  : result Scenario :=
  energy_mix <- normalize_mix energy_mix ;;
  compute <- watts_to_h100e watts year ;;
  capex <- calculate_capex watts year ;;
  infrastructure <- calculate_infrastructure watts energy_mix ;;
  let tokens := estimate_token_output (h100e_count compute) None in
  global_fractions <-
    calculate_global_fractions watts (total_capex capex) infrastructure ;;
  Ok {| s_watts := watts;
        s_year := year;
        s_energy_mix := energy_mix;
        s_compute := compute;
        s_capex := capex;
        s_infrastructure := infrastructure;
        s_tokens := tokens;
        s_global_fractions := global_fractions |}.

End Pipeline.

(** ** A model of [float_pow] for concrete runs

    CPython's [float_pow] for an [int] exponent, with the C library's [pow]
    taken as correctly rounded: the exact power of the (dyadic) base is
    rounded once.  The special cases before the library call are CPython's:
    [x ** 0] is [1.0], a NaN base gives NaN, a zero base with a negative
    exponent raises, and an overflowing result raises [OverflowError]. *)
Definition pow_correctly_rounded (m : positive) (e : Z) (n : Z) : spec_float :=
  if (0 <? n)%Z then
    binary_round prec emax false (m ^ Z.to_pos n)%positive (e * n)%Z
  else
    SFdiv prec emax (S754_finite false 1 0)
      (S754_finite false (m ^ Z.to_pos (- n))%positive (e * (- n))%Z).

Definition float_pow_model (x : float) (n : Z) : result float :=
  if (n =? 0)%Z then Ok 1.0
  else
    match Prim2SF x with
    | S754_nan => Ok nan
    | S754_zero s =>
        if (n <? 0)%Z then Raise ZeroDivisionError
        else Ok (if s && Z.odd n then neg_zero else zero)
    | S754_infinity s =>
        let neg := s && Z.odd n in
        if (0 <? n)%Z then Ok (if neg then neg_infinity else infinity)
        else Ok (if neg then neg_zero else zero)
    | S754_finite s m e =>
        let r := SF2Prim (pow_correctly_rounded m e n) in
        if is_infinity r then Raise OverflowError
        else Ok (if s && Z.odd n then - r else r)
    end.

(** ** The exact power, and the accuracy of the C library's [pow] *)

(** The rational value of a finite float. *)
Definition SF2Q (f : spec_float) : option Q :=
  match f with
  | S754_zero _ => Some 0%Q
  | S754_finite s m e => Some (inject_Z (if s then Zneg m else Zpos m) * 2 ^ e)%Q
  | _ => None
  end.

(** The exact power [x ** n] of a finite float. *)
Definition exact_pow (x : float) (n : Z) : option Q :=
  match SF2Q (Prim2SF x) with
  | Some q => Some (q ^ n)%Q
  | None => None
  end.

Definition Qltb (a b : Q) : bool := negb (Qle_bool b a).

(** [p] is a finite float less than one unit in its last place away from the
    rational [q]: the accuracy the C library documents for [pow]. *)
Definition within_one_ulp (q : Q) (p : float) : bool :=
  match Prim2SF p with
  | S754_zero _ => Qltb (Qabs q) (2 ^ (-1074))%Q
  | S754_finite s m e =>
      Qltb (Qabs (q - inject_Z (if s then Zneg m else Zpos m) * 2 ^ e)) (2 ^ e)%Q
  | _ => false
  end.

(** ** Pure views of the curves

    The three loops as folds of a yearly step over [range(y0 + 1, year + 1)];
    the lemmas below show that the source functions compute exactly these. *)

Definition growth_rate (y : Z) : float :=
  if (y >=? 2040)%Z then 1.25 else interp1d_linear 2025 2040 1.35 1.25 (Z.min y 2040).

Definition improvement_rate (y : Z) : float :=
  if (y >=? 2040)%Z then 1.2 else interp1d_linear 2025 2040 1.3 1.2 (Z.min y 2040).

Definition curve (step : Z -> float -> float) (y0 : Z) (base : float) (year : Z) : float :=
  range_fold (Z.to_nat (year - y0)) (y0 + 1)%Z step base.

Definition growth_step (y : Z) (cumulative : float) : float := cumulative * growth_rate y.
Definition decay_step (y : Z) (value : float) : float := value / improvement_rate y.

Definition growth_curve (year : Z) : float := curve growth_step 2024 1.0 year.
Definition decay_curve (base : float) (year : Z) : float := curve decay_step 2025 base year.

(** Iterating a function, and checking a predicate along the first [n + 1]
    points of an orbit. *)
Fixpoint iterate {A : Type} (n : nat) (f : A -> A) (x : A) : A :=
  match n with
  | O => x
  | S n' => iterate n' f (f x)
  end.

Fixpoint orbit_check {A : Type} (n : nat) (f : A -> A) (P : A -> bool) (x : A) : bool :=
  P x && match n with
         | O => true
         | S n' => orbit_check n' f P (f x)
         end.

(** Checking a predicate on the years [start, start + 1, ..., start + n - 1]. *)
Fixpoint years_check (n : nat) (start : Z) (P : Z -> bool) : bool :=
  match n with
  | O => true
  | S n' => P start && years_check n' (start + 1)%Z P
  end.

(** Order and sign tests as Python evaluates them. *)
Definition fle (a b : float) : Prop := (a <=? b) = true.
Definition flt (a b : float) : Prop := (a <? b) = true.
Definition feq (a b : float) : Prop := (a =? b) = true.

(** The yearly steps past the 2040 horizon, and the checks run along their
    orbits. *)
Definition decay_f (v : float) : float := v / 1.2.
Definition growth_f (v : float) : float := v * 1.25.

(** Tests run along the two decays side by side: the cost within a relative
    [bound] of 24 times the power, and the cost between the power and 25
    times the power. *)
Definition close_to_24 (bound : float) (pc : float * float) : bool :=
  abs (snd pc - 24 * fst pc) <=? bound * snd pc.

Definition between_1_and_25 (pc : float * float) : bool :=
  (fst pc <=? snd pc) && (snd pc <=? 25 * fst pc).

Definition decay_ok (v : float) : bool :=
  (decay_f v <=? v) && (0 <? v) && (v <? infinity).

Definition positive_finite (v : float) : bool := (0 <? v) && (v <? infinity).

Definition growth_ok (v : float) : bool := (v <=? growth_f v) && (0 <? v).

(** What zero watts make of the total throughput, given the density. *)
Definition zero_flops (density : float) : float := 0 * (H100_FLOPS * density).
Definition zero_flops_is_zero (density : float) : bool :=
  Leibniz.eqb (zero_flops density) 0.
Definition zero_flops_is_nan (density : float) : bool := is_nan (zero_flops density).

(** Sign classes of a rounded result, used to read signs off [SpecFloat]'s
    rounding: a finite non-zero number or an infinity of sign [s]; any
    number (a zero included) of sign [s]. *)
Definition nonzero_of_sign (s : bool) (x : spec_float) : Prop :=
  match x with
  | S754_finite s' _ _ | S754_infinity s' => s' = s
  | _ => False
  end.

Definition of_sign (s : bool) (x : spec_float) : Prop :=
  match x with
  | S754_nan => False
  | S754_zero s' | S754_finite s' _ _ | S754_infinity s' => s' = s
  end.

Local Open Scope string_scope.
Local Open Scope float_scope.

(** ** analysis.py: the scenario matrix *)

(** One row of the data frame of [create_scenario_matrix]. *)
Record MatrixRow : Type := {
  Power_GW : Z;
  Year : Z;
  Energy_Mix : string;
  H100e_Count : float;
  Total_FLOPS : float;
  CapEx_USD : float;
  CapEx_per_Watt : float;
  Pct_World_Electricity : float;
  Pct_World_GDP : float;
  Transformers_Needed : float;
  PV_Modules_Needed : float;
  Turbines_Needed : float;
  Annual_Tokens : float
}.

(** [for x in l: acc = body(x, acc)] with a body that can raise. *)
Fixpoint for_each {A S : Type} (l : list A) (body : A -> S -> result S) (acc : S)
  : result S :=
  match l with
  | [] => Ok acc
  | x :: l' => acc' <- body x acc ;; for_each l' body acc'
  end.

Definition power_levels_gw : list Z := [10; 30; 100; 300; 1000; 2000]%Z.
Definition matrix_years : list Z := [2025; 2030; 2035; 2040]%Z.
Definition energy_mixes : list (string * EnergyMix) :=
  [("Pure Solar", [("solar", 1.0); ("gas", 0.0)]);
   ("Pure Gas", [("solar", 0.0); ("gas", 1.0)]);
   ("Balanced", [("solar", 0.5); ("gas", 0.5)]);
   ("Solar Heavy", [("solar", 0.7); ("gas", 0.3)])]%string.

Section Analysis.

Variable float_pow : float -> Z -> result float.

(** The data frame is the list of its rows, in the order they are appended. *)
Definition create_scenario_matrix : result (list MatrixRow) :=
  for_each power_levels_gw
    (fun power_gw results =>
       for_each matrix_years
         (fun year results =>
            for_each energy_mixes
              (fun item results =>
                 let '(mix_name, energy_mix) := item in
                 scenario <-
                   run_scenario float_pow (float_of_int power_gw * 1e9) year energy_mix ;;
                 Ok (results ++
                     [{| Power_GW := power_gw;
                         Year := year;
                         Energy_Mix := mix_name;
                         H100e_Count := h100e_count (s_compute scenario);
                         Total_FLOPS := total_flops (s_compute scenario);
                         CapEx_USD := total_capex (s_capex scenario);
                         CapEx_per_Watt := capex_per_watt (s_capex scenario);
                         Pct_World_Electricity :=
                           electricity_fraction (s_global_fractions scenario) * 100;
                         Pct_World_GDP :=
                           gdp_fraction (s_global_fractions scenario) * 100;
                         Transformers_Needed := transformers (s_infrastructure scenario);
                         PV_Modules_Needed := pv_modules (s_infrastructure scenario);
                         Turbines_Needed := turbines (s_infrastructure scenario);
                         Annual_Tokens := annual_tokens (s_tokens scenario) |}])%list)
              results)
         results)
    [].

End Analysis.

(** The key of a row, and the keys the three nested loops run through. *)
Definition row_key (r : MatrixRow) : Z * Z * string :=
  (Power_GW r, Year r, Energy_Mix r).

Definition matrix_keys : list (Z * Z * string) :=
  flat_map (fun power_gw =>
    flat_map (fun year =>
      flat_map (fun item : string * EnergyMix => [(power_gw, year, fst item)])
        energy_mixes)
      matrix_years)
    power_levels_gw.

(** What every row of the matrix satisfies, whatever its year and mix. *)
Definition row_grid_ok (r : MatrixRow) : Prop :=
  Transformers_Needed r = float_of_int (Power_GW r) * 500 /\
  Pct_World_Electricity r
    = float_of_int (Power_GW r) * 1e9 * 365.25 * 24 / 35.2e12 * 100.

(** [analyze_bottlenecks]: the rows selected by
    [df[df['Pct_World_Electricity'] > 100]]. *)
Definition electricity_bottleneck (df : list MatrixRow) : list MatrixRow :=
  filter (fun row => 100 <? Pct_World_Electricity row) df.

Local Close Scope string_scope.

(** * Proofs *)

(** ** Loops *)

Lemma range_fold_snoc {A : Type} (n : nat) (y : Z) (body : Z -> A -> A) (acc : A) :
  range_fold (S n) y body acc = body (y + Z.of_nat n)%Z (range_fold n y body acc).
Proof.
  revert y acc; induction n as [|n IH]; intros y acc.
  - cbn. now rewrite Z.add_0_r.
  - change (range_fold (S (S n)) y body acc)
      with (range_fold (S n) (y + 1)%Z body (body y acc)).
    rewrite IH. cbn [range_fold].
    f_equal. lia.
Qed.

Lemma range_foldM_pure {A : Type} (n : nat) (y : Z) (bodyM : Z -> A -> result A)
  (body : Z -> A -> A) (acc : A) :
  (forall k a, (y <= k)%Z -> bodyM k a = Ok (body k a)) ->
  range_foldM n y bodyM acc = Ok (range_fold n y body acc).
Proof.
  revert y acc; induction n as [|n IH]; intros y acc Hb; cbn.
  - reflexivity.
  - rewrite Hb by lia. cbn. apply IH. intros k a Hk. apply Hb. lia.
Qed.

Lemma curve_base step y0 base year :
  (year <= y0)%Z -> curve step y0 base year = base.
Proof.
  intros H. unfold curve.
  replace (Z.to_nat (year - y0)) with O by lia. reflexivity.
Qed.

Lemma curve_succ step y0 base year :
  (y0 <= year)%Z ->
  curve step y0 base (year + 1) = step (year + 1)%Z (curve step y0 base year).
Proof.
  intros H. unfold curve.
  replace (Z.to_nat (year + 1 - y0)) with (S (Z.to_nat (year - y0))) by lia.
  rewrite range_fold_snoc. f_equal. lia.
Qed.

Lemma iterate_snoc {A : Type} (n : nat) (f : A -> A) (x : A) :
  iterate (S n) f x = f (iterate n f x).
Proof.
  revert x; induction n as [|n IH]; intros x.
  - reflexivity.
  - change (iterate (S (S n)) f x) with (iterate (S n) f (f x)).
    now rewrite IH.
Qed.

Lemma iterate_add {A : Type} (a b : nat) (f : A -> A) (x : A) :
  iterate (a + b) f x = iterate b f (iterate a f x).
Proof.
  revert x; induction a as [|a IH]; intros x; cbn.
  - reflexivity.
  - apply IH.
Qed.

Lemma iterate_fixed {A : Type} (n : nat) (f : A -> A) (c : A) :
  f c = c -> iterate n f c = c.
Proof.
  intros H; induction n as [|n IH]; cbn.
  - reflexivity.
  - now rewrite H.
Qed.

Lemma orbit_check_sound {A : Type} (n : nat) (f : A -> A) (P : A -> bool) (x : A) :
  orbit_check n f P x = true ->
  forall k, (k <= n)%nat -> P (iterate k f x) = true.
Proof.
  revert x; induction n as [|n IH]; intros x H k Hk; cbn in H;
    apply andb_true_iff in H; destruct H as [Hx Hn].
  - replace k with O by lia. exact Hx.
  - destruct k as [|k]; [exact Hx|]. cbn. apply IH; [exact Hn | lia].
Qed.

(** A predicate checked along an orbit up to a fixed point holds on the whole
    orbit. *)
Lemma orbit_all {A : Type} (n : nat) (f : A -> A) (P : A -> bool) (x : A) :
  orbit_check n f P x = true ->
  f (iterate n f x) = iterate n f x ->
  forall k, P (iterate k f x) = true.
Proof.
  intros Hc Hfix k.
  destruct (Nat.le_gt_cases k n) as [Hk|Hk].
  - now apply (orbit_check_sound n).
  - replace k with (n + (k - n))%nat by lia.
    rewrite iterate_add, iterate_fixed by exact Hfix.
    apply (orbit_check_sound n f P x Hc n). lia.
Qed.

Lemma years_check_sound (n : nat) (start : Z) (P : Z -> bool) :
  years_check n start P = true ->
  forall y, (start <= y < start + Z.of_nat n)%Z -> P y = true.
Proof.
  revert start; induction n as [|n IH]; intros start H y Hy.
  - lia.
  - cbn in H. apply andb_true_iff in H. destruct H as [H0 Hn].
    destruct (Z.eq_dec y start) as [->|Hne]; [exact H0|].
    apply (IH (start + 1)%Z Hn). lia.
Qed.

(** Past the horizon [H], where the yearly step no longer depends on the
    year, the curve is an orbit of that step. *)
Lemma curve_iterate step f y0 H base (k : nat) :
  (forall y v, (H < y)%Z -> step y v = f v) ->
  (y0 <= H)%Z ->
  curve step y0 base (H + Z.of_nat k) = iterate k f (curve step y0 base H).
Proof.
  intros Hstep Hle. induction k as [|k IH].
  - now rewrite Z.add_0_r.
  - replace (H + Z.of_nat (S k))%Z with (H + Z.of_nat k + 1)%Z by lia.
    rewrite curve_succ by lia. rewrite Hstep by lia.
    now rewrite IH, iterate_snoc.
Qed.

Lemma curve_tail step f y0 H base (P : float -> bool) (n : nat) :
  (forall y v, (H < y)%Z -> step y v = f v) ->
  (y0 <= H)%Z ->
  orbit_check n f P (curve step y0 base H) = true ->
  f (iterate n f (curve step y0 base H)) = iterate n f (curve step y0 base H) ->
  forall year, (H <= year)%Z -> P (curve step y0 base year) = true.
Proof.
  intros Hstep Hle Hc Hfix year Hy.
  replace year with (H + Z.of_nat (Z.to_nat (year - H)))%Z by lia.
  rewrite (curve_iterate step f) by assumption.
  now apply (orbit_all n).
Qed.

(** ** The source curves are the pure curves *)

Lemma truediv_ok (a b : float) : (b =? 0) = false -> truediv a b = Ok (a / b).
Proof. unfold truediv. now intros ->. Qed.

Lemma improvement_rate_late y : (2040 <= y)%Z -> improvement_rate y = 1.2.
Proof.
  intros H. unfold improvement_rate.
  destruct (y >=? 2040)%Z eqn:E; [reflexivity | lia].
Qed.

Lemma growth_rate_late y : (2040 <= y)%Z -> growth_rate y = 1.25.
Proof.
  intros H. unfold growth_rate.
  destruct (y >=? 2040)%Z eqn:E; [reflexivity | lia].
Qed.

Lemma improvement_rate_nonzero y :
  (2026 <= y)%Z -> (improvement_rate y =? 0) = false.
Proof.
  intros H. destruct (Z.le_gt_cases 2040 y) as [Hl|Hl].
  - now rewrite improvement_rate_late.
  - apply negb_true_iff.
    apply (years_check_sound 14 2026 (fun y => negb (improvement_rate y =? 0))).
    + vm_compute. reflexivity.
    + lia.
Qed.

Lemma moores_law_curve year : moores_law year = growth_curve year.
Proof.
  unfold moores_law, growth_curve, BASE_YEAR.
  destruct (year <=? 2024)%Z eqn:E.
  - rewrite curve_base by lia. reflexivity.
  - unfold curve, range_len.
    replace (year + 1 - (2024 + 1))%Z with (year - 2024)%Z by lia.
    reflexivity.
Qed.

Lemma power_efficiency_curve year : power_efficiency year = Ok (decay_curve 1000 year).
Proof.
  unfold power_efficiency, decay_curve.
  destruct (year <=? 2024)%Z eqn:E.
  - rewrite curve_base by lia. reflexivity.
  - destruct (year =? 2025)%Z eqn:E'.
    + rewrite curve_base by lia. reflexivity.
    + unfold curve, range_len.
      replace (year + 1 - 2026)%Z with (year - 2025)%Z by lia.
      apply range_foldM_pure. intros k a Hk.
      apply (truediv_ok a (improvement_rate k)).
      apply improvement_rate_nonzero. lia.
Qed.

Lemma cost_efficiency_curve year : cost_efficiency year = Ok (decay_curve 24000 year).
Proof.
  unfold cost_efficiency, decay_curve.
  destruct (year <=? 2024)%Z eqn:E.
  - rewrite curve_base by lia. reflexivity.
  - destruct (year =? 2025)%Z eqn:E'.
    + rewrite curve_base by lia. reflexivity.
    + unfold curve, range_len.
      replace (year + 1 - 2026)%Z with (year - 2025)%Z by lia.
      apply range_foldM_pure. intros k a Hk.
      apply (truediv_ok a (improvement_rate k)).
      apply improvement_rate_nonzero. lia.
Qed.

Lemma compare_cont_Eq_spec (p q : positive) :
  Pos.compare_cont Eq p q = Pos.compare p q.
Proof. reflexivity. Qed.

Ltac cmp_cases :=
  repeat match goal with
    | H : context [Z.compare ?a ?b] |- _ =>
        let E := fresh "E" in
        destruct (Z.compare_spec a b) as [E|E|E]
    | |- context [Z.compare ?a ?b] =>
        let E := fresh "E" in
        destruct (Z.compare_spec a b) as [E|E|E]
    | H : context [Pos.compare_cont Eq ?a ?b] |- _ =>
        let E := fresh "E" in
        change (Pos.compare_cont Eq a b) with (Pos.compare a b) in *;
        destruct (Pos.compare_spec a b) as [E|E|E]
    | |- context [Pos.compare_cont Eq ?a ?b] =>
        let E := fresh "E" in
        change (Pos.compare_cont Eq a b) with (Pos.compare a b) in *;
        destruct (Pos.compare_spec a b) as [E|E|E]
    end.

Lemma SFleb_trans (x y z : spec_float) :
  SFleb x y = true -> SFleb y z = true -> SFleb x z = true.
Proof.
  unfold SFleb.
  destruct x as [sx|sx| |sx mx ex], y as [sy|sy| |sy my ey], z as [sz|sz| |sz mz ez];
    try destruct sx; try destruct sy; try destruct sz; cbn;
    try discriminate; try reflexivity;
    intros H1 H2; cmp_cases; subst; cbn in *;
    try discriminate; try reflexivity; try lia.
Qed.

Lemma leb_trans (x y z : float) :
  (x <=? y) = true -> (y <=? z) = true -> (x <=? z) = true.
Proof. rewrite !leb_spec. apply SFleb_trans. Qed.

(** ** Signs and zeros of binary64 values, through their specification *)

Lemma Prim2SF_zero : Prim2SF 0 = S754_zero false.
Proof. reflexivity. Qed.

Lemma Prim2SF_infinity : Prim2SF infinity = S754_infinity false.
Proof. reflexivity. Qed.

Lemma SFeqb_refl_finite s m e : SFeqb (S754_finite s m e) (S754_finite s m e) = true.
Proof.
  unfold SFeqb, SFcompare. rewrite Z.compare_refl.
  change (Pos.compare_cont Eq m m) with (Pos.compare m m).
  rewrite Pos.compare_refl. now destruct s.
Qed.

(** [0 < t] excludes a zero (and a NaN) [t]. *)
Lemma flt_zero_nonzero (t : float) : (0 <? t) = true -> (t =? 0) = false.
Proof.
  rewrite ltb_spec, eqb_spec, Prim2SF_zero.
  destruct (Prim2SF t) as [s|s| |s m e]; try destruct s; cbn; congruence.
Qed.

Lemma flt_neg_nonzero (t : float) : (t <? 0) = true -> (t =? 0) = false.
Proof.
  rewrite ltb_spec, eqb_spec, Prim2SF_zero.
  destruct (Prim2SF t) as [s|s| |s m e]; try destruct s; cbn; congruence.
Qed.

(** A float that compares equal to zero is one of the two zeros. *)
Lemma feq_zero_inv (t : float) : (t =? 0) = true -> t = 0 \/ t = neg_zero.
Proof.
  rewrite eqb_spec, Prim2SF_zero. intros H.
  destruct (Prim2SF t) as [s|s| |s m e] eqn:E; try destruct s; cbn in H;
    try discriminate.
  - right. apply Prim2SF_inj. now rewrite E.
  - left. apply Prim2SF_inj. now rewrite E.
Qed.

(** Zero divided by a positive value is [+0.0]. *)
Lemma zero_div_pos (v : float) : (0 <? v) = true -> 0 / v = 0.
Proof.
  rewrite ltb_spec, Prim2SF_zero. intros H.
  apply Prim2SF_inj. rewrite div_spec, Prim2SF_zero.
  destruct (Prim2SF v) as [s|s| |s m e]; try destruct s; cbn in H;
    try discriminate; reflexivity.
Qed.

Lemma is_finite_spec (x : float) :
  is_finite x = match Prim2SF x with
                | S754_zero _ | S754_finite _ _ _ => true
                | _ => false
                end.
Proof.
  unfold is_finite, is_nan, is_infinity.
  rewrite !eqb_spec, abs_spec, Prim2SF_infinity.
  destruct (Prim2SF x) as [s|s| |s m e]; try destruct s;
    rewrite ?SFeqb_refl_finite; reflexivity.
Qed.

(** A finite value times a zero is a zero. *)
Lemma fmul_zero_r (a z : float) :
  is_finite a = true -> (z =? 0) = true -> (a * z =? 0) = true.
Proof.
  rewrite is_finite_spec, !eqb_spec, mul_spec, Prim2SF_zero.
  destruct (Prim2SF a) as [s|s| |s m e], (Prim2SF z) as [s'|s'| |s' m' e'];
    cbn; try discriminate; try reflexivity;
    try destruct s'; cbn; try discriminate; try reflexivity.
Qed.

Lemma fmul_zero_l (z b : float) :
  (z =? 0) = true -> is_finite b = true -> (z * b =? 0) = true.
Proof.
  rewrite is_finite_spec, !eqb_spec, mul_spec, Prim2SF_zero.
  destruct (Prim2SF z) as [s|s| |s m e], (Prim2SF b) as [s'|s'| |s' m' e'];
    cbn; try discriminate; try reflexivity;
    try destruct s; cbn; try discriminate; try reflexivity.
Qed.

(** ** Rounding keeps a positive mantissa positive

    The facts about [SpecFloat]'s rounding that the sum of an energy mix
    needs: shifting right by fewer bits than the mantissa has leaves a
    positive mantissa, so rounding a positive number whose exponent is not
    below [emin] never gives a zero or a NaN. *)

Local Open Scope Z_scope.

Lemma emin_eq : emin = -1074.
Proof. reflexivity. Qed.

Lemma fexp_eq (e : Z) : fexp prec emax e = Z.max (e - 53) (-1074).
Proof. reflexivity. Qed.

Lemma shr_1_div2 (mrs : shr_record) :
  0 <= shr_m mrs -> shr_m (shr_1 mrs) = shr_m mrs / 2.
Proof.
  destruct mrs as [m r s]; cbn [shr_m]. intros H.
  rewrite <- Z.div2_div.
  destruct m as [|p|p]; [reflexivity| |lia].
  destruct p; reflexivity.
Qed.

Lemma pow2_xO (n : positive) : 2 ^ Z.pos n~0 = 2 ^ Z.pos n * 2 ^ Z.pos n.
Proof.
  replace (Z.pos n~0) with (Z.pos n + Z.pos n) by lia.
  apply Z.pow_add_r; lia.
Qed.

Lemma pow2_xI (n : positive) : 2 ^ Z.pos n~1 = 2 * (2 ^ Z.pos n * 2 ^ Z.pos n).
Proof.
  replace (Z.pos n~1) with (1 + Z.pos n~0) by lia.
  rewrite Z.pow_add_r by lia. now rewrite pow2_xO.
Qed.

Lemma iter_shr_1_div (n : positive) : forall mrs : shr_record,
  0 <= shr_m mrs ->
  shr_m (iter_pos shr_1 n mrs) = shr_m mrs / 2 ^ Zpos n.
Proof.
  induction n as [n IH|n IH|]; intros mrs H; cbn [iter_pos].
  - assert (H1 : 0 <= shr_m (shr_1 mrs))
      by (rewrite shr_1_div2 by assumption; apply Z.div_pos; lia).
    assert (H2 : 0 <= shr_m (iter_pos shr_1 n (shr_1 mrs)))
      by (rewrite IH by assumption; apply Z.div_pos; lia).
    rewrite IH, IH, shr_1_div2 by assumption.
    assert (Hp : 0 < 2 ^ Z.pos n) by (apply Z.pow_pos_nonneg; lia).
    rewrite !Z.div_div by lia.
    f_equal. symmetry. apply pow2_xI.
  - assert (H2 : 0 <= shr_m (iter_pos shr_1 n mrs))
      by (rewrite IH by assumption; apply Z.div_pos; lia).
    rewrite IH, IH by assumption.
    assert (Hp : 0 < 2 ^ Z.pos n) by (apply Z.pow_pos_nonneg; lia).
    rewrite !Z.div_div by lia.
    f_equal. symmetry. apply pow2_xO.
  - now rewrite shr_1_div2.
Qed.

Lemma digits2_pos_lower (m : positive) :
  2 ^ (Zpos (digits2_pos m) - 1) <= Zpos m.
Proof.
  induction m as [m IH|m IH|]; cbn [digits2_pos].
  - rewrite Pos2Z.inj_succ.
    replace (Z.succ (Z.pos (digits2_pos m)) - 1) with (1 + (Z.pos (digits2_pos m) - 1)) by lia.
    rewrite Z.pow_add_r by lia. lia.
  - rewrite Pos2Z.inj_succ.
    replace (Z.succ (Z.pos (digits2_pos m)) - 1) with (1 + (Z.pos (digits2_pos m) - 1)) by lia.
    rewrite Z.pow_add_r by lia. lia.
  - cbn. lia.
Qed.

Lemma shr_record_of_loc_m (m : Z) (l : location) : shr_m (shr_record_of_loc m l) = m.
Proof. destruct l as [|[]]; reflexivity. Qed.

Lemma shr_fexp_pos (m : positive) (e : Z) (l : location) :
  emin <= e ->
  0 < shr_m (fst (shr_fexp prec emax (Zpos m) e l)) /\
  emin <= snd (shr_fexp prec emax (Zpos m) e l).
Proof.
  intros He. rewrite emin_eq in *. unfold shr_fexp, shr, Zdigits2.
  rewrite fexp_eq.
  change (IntDef.Z.add (Z.pos (digits2_pos m)) e) with (Z.pos (digits2_pos m) + e).
  change (IntDef.Z.sub ?a ?b) with (a - b).
  destruct (Z.max (Z.pos (digits2_pos m) + e - 53) (-1074) - e) as [|n|n] eqn:En;
    cbn [fst snd]; rewrite ?shr_record_of_loc_m; try (split; lia).
  rewrite iter_shr_1_div by (rewrite shr_record_of_loc_m; lia).
  rewrite shr_record_of_loc_m. split; [|lia].
  assert (Hn : Zpos n <= Zpos (digits2_pos m) - 1) by lia.
  pose proof (digits2_pos_lower m) as Hm.
  assert (Hp : 2 ^ Zpos n <= 2 ^ (Zpos (digits2_pos m) - 1))
    by (apply Z.pow_le_mono_r; lia).
  assert (H1 : 1 <= Zpos m / 2 ^ Zpos n).
  { apply Z.div_le_lower_bound; [apply Z.pow_pos_nonneg; lia | lia]. }
  lia.
Qed.

Lemma round_nearest_even_ge (m : Z) (l : location) : m <= round_nearest_even m l.
Proof.
  unfold round_nearest_even. destruct l as [|[]]; try lia.
  destruct (Z.even m); lia.
Qed.

(** Rounding a positive mantissa at an exponent that is not below [emin]
    gives a finite non-zero number or an infinity, of the given sign. *)

Lemma binary_round_aux_pos (s : bool) (m : positive) (e : Z) (l : location) :
  emin <= e -> nonzero_of_sign s (binary_round_aux prec emax s (Zpos m) e l).
Proof.
  intros He. unfold binary_round_aux.
  destruct (shr_fexp_pos m e l He) as [Hm1 He1].
  destruct (shr_fexp prec emax (Zpos m) e l) as [mrs' e'] eqn:E1. cbn [fst snd] in *.
  pose proof (round_nearest_even_ge (shr_m mrs') (loc_of_shr_record mrs')) as Hr.
  destruct (round_nearest_even (shr_m mrs') (loc_of_shr_record mrs')) as [|m2|m2] eqn:E2;
    try lia.
  destruct (shr_fexp_pos m2 e' loc_Exact He1) as [Hm2 He2].
  destruct (shr_fexp prec emax (Zpos m2) e' loc_Exact) as [mrs'' e''] eqn:E3.
  cbn [fst snd] in *.
  destruct (shr_m mrs'') as [|m3|m3]; try lia.
  destruct (e'' <=? emax - prec); reflexivity.
Qed.

Lemma binary_round_pos (s : bool) (m : positive) (e : Z) :
  emin <= e -> nonzero_of_sign s (binary_round prec emax s m e).
Proof.
  intros He. unfold binary_round, shl_align.
  set (e' := fexp prec emax (Z.pos (digits2_pos m) + e)).
  assert (He' : emin <= e') by (unfold e'; rewrite fexp_eq; pose proof emin_eq; lia).
  destruct (e' - e) as [|d|d]; apply binary_round_aux_pos; assumption.
Qed.

Lemma valid_binary_emin (s : bool) (m : positive) (e : Z) :
  valid_binary (S754_finite s m e) = true -> emin <= e.
Proof.
  unfold valid_binary, bounded, canonical_mantissa.
  intros H. apply andb_true_iff in H. destruct H as [H _].
  apply Z.eqb_eq in H. rewrite fexp_eq in H. pose proof emin_eq. lia.
Qed.

(** The sum of two positive finite numbers is positive. *)
Lemma SFadd_pos_pos (mx : positive) (ex : Z) (my : positive) (ey : Z) :
  valid_binary (S754_finite false mx ex) = true ->
  valid_binary (S754_finite false my ey) = true ->
  nonzero_of_sign false
    (SFadd prec emax (S754_finite false mx ex) (S754_finite false my ey)).
Proof.
  intros Hx Hy. apply valid_binary_emin in Hx, Hy.
  unfold SFadd, cond_Zopp.
  rewrite <- Pos2Z.inj_add. cbn [binary_normalize].
  apply binary_round_pos. lia.
Qed.

Local Close Scope Z_scope.

(** ** Sums of non-negative floats *)

Lemma nonzero_of_sign_false_cases (x : spec_float) :
  nonzero_of_sign false x ->
  SFleb (S754_zero false) x = true /\ SFeqb x (S754_zero false) = false.
Proof.
  destruct x as [s|s| |s m e]; cbn; try contradiction; intros ->; split; reflexivity.
Qed.

Lemma SFadd_nonneg (a b : spec_float) :
  valid_binary a = true -> valid_binary b = true ->
  SFleb (S754_zero false) a = true -> SFleb (S754_zero false) b = true ->
  SFleb (S754_zero false) (SFadd prec emax a b) = true /\
  (SFeqb (SFadd prec emax a b) (S754_zero false) = true ->
   SFeqb a (S754_zero false) = true /\ SFeqb b (S754_zero false) = true).
Proof.
  intros Va Vb Ha Hb.
  destruct a as [sa|sa| |sa ma ea], b as [sb|sb| |sb mb eb];
    try destruct sa; try destruct sb; try discriminate;
    try (cbn; split; [reflexivity | intros H; try discriminate; split; reflexivity]).
  destruct (nonzero_of_sign_false_cases _ (SFadd_pos_pos ma ea mb eb Va Vb)) as [H1 H2].
  split; [exact H1 | intros H; congruence].
Qed.

Lemma fadd_nonneg (a b : float) :
  (0 <=? a) = true -> (0 <=? b) = true ->
  (0 <=? a + b) = true /\
  ((a + b =? 0) = true -> (a =? 0) = true /\ (b =? 0) = true).
Proof.
  rewrite !leb_spec, !eqb_spec, add_spec, Prim2SF_zero.
  apply SFadd_nonneg; apply Prim2SF_valid.
Qed.

(** If the running sum of non-negative shares ends at zero, the start and
    every share were zero. *)
Lemma fold_sum_zero (d : EnergyMix) : forall acc : float,
  (0 <=? acc) = true ->
  Forall (fun kv => (0 <=? snd kv) = true) d ->
  (fold_left (fun acc kv => acc + snd kv) d acc =? 0) = true ->
  (acc =? 0) = true /\ Forall (fun kv => (snd kv =? 0) = true) d.
Proof.
  induction d as [|[k v] d IH]; intros acc Hacc Hd Hsum; cbn in *.
  - split; [exact Hsum | constructor].
  - inversion Hd as [|? ? Hv Hd']; subst. cbn in Hv.
    destruct (fadd_nonneg acc v Hacc Hv) as [Hnn Hz].
    destruct (IH (acc + v) Hnn Hd' Hsum) as [H0 Hall].
    destruct (Hz H0) as [Ha Hv0].
    split; [exact Ha | constructor; [exact Hv0 | exact Hall]].
Qed.

Lemma dict_sum_zero (d : EnergyMix) :
  Forall (fun kv => (0 <=? snd kv) = true) d ->
  (dict_sum d =? 0) = true ->
  Forall (fun kv => (snd kv =? 0) = true) d.
Proof.
  intros Hd Hs. apply (fold_sum_zero d 0); [reflexivity | exact Hd | exact Hs].
Qed.

Lemma dict_get_zero (d : EnergyMix) (key : string) :
  Forall (fun kv => (snd kv =? 0) = true) d ->
  (dict_get d key 0 =? 0) = true.
Proof.
  induction d as [|[k v] d IH]; intros H; cbn.
  - reflexivity.
  - inversion H as [|? ? Hv Hd]; subst. cbn in Hv.
    destruct (String.eqb k key); [exact Hv | now apply IH].
Qed.

Lemma feq_zero_not_pos (t : float) : (t =? 0) = true -> (0 <? t) = false.
Proof.
  rewrite ltb_spec, eqb_spec, Prim2SF_zero.
  destruct (Prim2SF t) as [s|s| |s m e]; try destruct s; cbn; congruence.
Qed.

Lemma feq_zero_finite (t : float) : (t =? 0) = true -> is_finite t = true.
Proof.
  rewrite is_finite_spec, eqb_spec, Prim2SF_zero.
  destruct (Prim2SF t) as [s|s| |s m e]; try destruct s; cbn; congruence.
Qed.

(** ** The curves over every year *)

Lemma decay_step_late y v : (2040 < y)%Z -> decay_step y v = decay_f v.
Proof. intros H. unfold decay_step, decay_f. now rewrite improvement_rate_late by lia. Qed.

Lemma growth_step_late y v : (2040 < y)%Z -> growth_step y v = growth_f v.
Proof. intros H. unfold growth_step, growth_f. now rewrite growth_rate_late by lia. Qed.

(** From 2040 on the power curve keeps dividing by 1.2 until, 4097 years
    later, it is caught at three units of the last place of the subnormal
    range, where [v / 1.2] rounds back to [v]: it never reaches zero. *)
Lemma decay_curve_tail_1000 year :
  (2040 <= year)%Z -> decay_ok (decay_curve 1000 year) = true.
Proof.
  apply (curve_tail decay_step decay_f 2025 2040 1000 decay_ok (Z.to_nat 4200)).
  - intros; now apply decay_step_late.
  - lia.
  - vm_compute. reflexivity.
  - vm_compute. reflexivity.
Qed.

Lemma decay_curve_tail_24000 year :
  (2040 <= year)%Z -> decay_ok (decay_curve 24000 year) = true.
Proof.
  apply (curve_tail decay_step decay_f 2025 2040 24000 decay_ok (Z.to_nat 4200)).
  - intros; now apply decay_step_late.
  - lia.
  - vm_compute. reflexivity.
  - vm_compute. reflexivity.
Qed.

(** The density curve keeps multiplying by 1.25 until it overflows to
    infinity, in 5203, and stays there. *)
Lemma growth_curve_tail year :
  (2040 <= year)%Z -> growth_ok (growth_curve year) = true.
Proof.
  apply (curve_tail growth_step growth_f 2024 2040 1 growth_ok (Z.to_nat 3200)).
  - intros; now apply growth_step_late.
  - lia.
  - vm_compute. reflexivity.
  - vm_compute. reflexivity.
Qed.

Lemma decay_ok_positive v : decay_ok v = true -> positive_finite v = true.
Proof.
  unfold decay_ok, positive_finite. intros H.
  apply andb_true_iff in H. destruct H as [H H3].
  apply andb_true_iff in H. destruct H as [_ H2].
  now rewrite H2, H3.
Qed.

Lemma decay_curve_positive_1000 year : positive_finite (decay_curve 1000 year) = true.
Proof.
  destruct (Z.le_gt_cases year 2025) as [H|H].
  - unfold decay_curve. rewrite curve_base by lia. reflexivity.
  - destruct (Z.le_gt_cases 2040 year) as [H'|H'].
    + apply decay_ok_positive, decay_curve_tail_1000, H'.
    + apply (years_check_sound 14 2026 (fun y => positive_finite (decay_curve 1000 y))).
      * vm_compute. reflexivity.
      * lia.
Qed.

Lemma decay_curve_positive_24000 year : positive_finite (decay_curve 24000 year) = true.
Proof.
  destruct (Z.le_gt_cases year 2025) as [H|H].
  - unfold decay_curve. rewrite curve_base by lia. reflexivity.
  - destruct (Z.le_gt_cases 2040 year) as [H'|H'].
    + apply decay_ok_positive, decay_curve_tail_24000, H'.
    + apply (years_check_sound 14 2026 (fun y => positive_finite (decay_curve 24000 y))).
      * vm_compute. reflexivity.
      * lia.
Qed.

Lemma positive_finite_nonzero v : positive_finite v = true -> (v =? 0) = false.
Proof.
  unfold positive_finite. intros H. apply andb_true_iff in H.
  apply flt_zero_nonzero. tauto.
Qed.

(** ** The estimators, call by call *)

(** The unit conversion returns for every input: the power curve is never
    zero. *)
Lemma watts_to_h100e_eq (watts : float) (year : Z) :
  watts_to_h100e watts year =
  Ok {| h100e_count := watts / decay_curve 1000 year;
        watts_per_h100e := decay_curve 1000 year;
        total_flops := watts / decay_curve 1000 year * (H100_FLOPS * moores_law year);
        flops_per_h100e := H100_FLOPS * moores_law year |}.
Proof.
  unfold watts_to_h100e. rewrite power_efficiency_curve. cbn [bind].
  rewrite truediv_ok
    by apply positive_finite_nonzero, decay_curve_positive_1000.
  reflexivity.
Qed.

Lemma calculate_infrastructure_eq (watts : float) (energy_mix : EnergyMix) :
  calculate_infrastructure watts energy_mix =
  Ok {| transformers := watts / 1e6 * TRANSFORMERS_PER_MW;
        switchgear := watts / 1e6 * SWITCHGEAR_PER_MW;
        pv_modules :=
          watts / 1e6 * dict_get energy_mix "solar" 0 * 4 * PV_MODULES_PER_MW_SOLAR;
        batteries_mwh :=
          watts / 1e6 * dict_get energy_mix "solar" 0 * 4 * BATTERIES_MWH_PER_MW_SOLAR;
        turbines := watts / 1e6 * dict_get energy_mix "gas" 0 * TURBINES_PER_MW_GAS;
        total_mw := watts / 1e6;
        solar_mw_capacity := watts / 1e6 * dict_get energy_mix "solar" 0 * 4;
        gas_mw := watts / 1e6 * dict_get energy_mix "gas" 0 |}.
Proof. reflexivity. Qed.

Lemma calculate_global_fractions_ok (watts capex : float) (i : Infrastructure) :
  exists g, calculate_global_fractions watts capex i = Ok g.
Proof. eexists. reflexivity. Qed.

Lemma dict_div_ok (d : EnergyMix) (total : float) :
  (total =? 0) = false ->
  dict_div d total = Ok (map (fun kv => (fst kv, snd kv / total)) d).
Proof.
  intros H. induction d as [|[k v] d IH]; cbn.
  - reflexivity.
  - rewrite truediv_ok by exact H. cbn. rewrite IH. reflexivity.
Qed.

(** Normalisation never raises: the division happens only under the guard
    [total > 0]. *)
Lemma normalize_mix_eq (energy_mix : EnergyMix) :
  normalize_mix energy_mix =
  Ok (if 0 <? dict_sum energy_mix
      then map (fun kv => (fst kv, snd kv / dict_sum energy_mix)) energy_mix
      else energy_mix).
Proof.
  unfold normalize_mix. destruct (0 <? dict_sum energy_mix) eqn:E.
  - apply dict_div_ok, flt_zero_nonzero, E.
  - reflexivity.
Qed.

Section PipelineFacts.

Variable float_pow : float -> Z -> result float.

(** The CapEx estimator raises only where the power does, or at its last
    division, by [watts]. *)
Lemma calculate_capex_eq (watts : float) (year : Z) :
  calculate_capex float_pow watts year =
  (p <- float_pow 1.1 (year - 2025) ;;
   let compute := watts / decay_curve 1000 year * decay_curve 24000 year in
   let non_compute := compute * (0.5 * p) in
   let total := compute + non_compute in
   capex_per_watt <- truediv total watts ;;
   Ok {| total_capex := total;
         compute_capex := compute;
         non_compute_capex := non_compute;
         cost_per_h100e := decay_curve 24000 year;
         capex_per_watt := capex_per_watt |}).
Proof.
  unfold calculate_capex. rewrite watts_to_h100e_eq, cost_efficiency_curve.
  reflexivity.
Qed.

Lemma run_scenario_ok (watts : float) (year : Z) (energy_mix : EnergyMix) (p : float) :
  (watts =? 0) = false ->
  float_pow 1.1 (year - 2025) = Ok p ->
  exists s,
    run_scenario float_pow watts year energy_mix = Ok s /\
    s_watts s = watts /\
    s_year s = year /\
    normalize_mix energy_mix = Ok (s_energy_mix s) /\
    watts_to_h100e watts year = Ok (s_compute s) /\
    calculate_capex float_pow watts year = Ok (s_capex s) /\
    calculate_infrastructure watts (s_energy_mix s) = Ok (s_infrastructure s) /\
    s_tokens s = estimate_token_output (h100e_count (s_compute s)) None /\
    calculate_global_fractions watts (total_capex (s_capex s)) (s_infrastructure s)
      = Ok (s_global_fractions s).
Proof.
  intros Hw Hp. unfold run_scenario.
  rewrite normalize_mix_eq. cbn [bind].
  rewrite watts_to_h100e_eq. cbn [bind].
  rewrite calculate_capex_eq, Hp. cbn [bind].
  rewrite truediv_ok by exact Hw. cbn [bind].
  rewrite calculate_infrastructure_eq. cbn [bind].
  eexists. split; [reflexivity|]. cbn.
  repeat split; reflexivity.
Qed.

End PipelineFacts.

(** ** Monotonicity of the curves *)

(** A sequence of floats that steps down (up) from one year to the next is
    ordered over any span of years. *)
Lemma chain_decreasing (f : Z -> float) (y0 : Z) :
  (forall y, (y0 <= y)%Z -> fle (f (y + 1)%Z) (f y)) ->
  forall y1 y2, (y0 <= y1)%Z -> (y1 < y2)%Z -> fle (f y2) (f y1).
Proof.
  intros Hstep y1 y2 H1 H2.
  replace y2 with (y1 + 1 + Z.of_nat (Z.to_nat (y2 - y1 - 1)))%Z by lia.
  induction (Z.to_nat (y2 - y1 - 1)) as [|k IH].
  - rewrite Z.add_0_r. now apply Hstep.
  - replace (y1 + 1 + Z.of_nat (S k))%Z with (y1 + 1 + Z.of_nat k + 1)%Z by lia.
    unfold fle in *. eapply leb_trans; [|exact IH]. apply Hstep. lia.
Qed.

Lemma chain_increasing (f : Z -> float) (y0 : Z) :
  (forall y, (y0 <= y)%Z -> fle (f y) (f (y + 1)%Z)) ->
  forall y1 y2, (y0 <= y1)%Z -> (y1 < y2)%Z -> fle (f y1) (f y2).
Proof.
  intros Hstep y1 y2 H1 H2.
  replace y2 with (y1 + 1 + Z.of_nat (Z.to_nat (y2 - y1 - 1)))%Z by lia.
  induction (Z.to_nat (y2 - y1 - 1)) as [|k IH].
  - rewrite Z.add_0_r. now apply Hstep.
  - replace (y1 + 1 + Z.of_nat (S k))%Z with (y1 + 1 + Z.of_nat k + 1)%Z by lia.
    unfold fle in *. eapply leb_trans; [exact IH|]. apply Hstep. lia.
Qed.

Lemma decay_ok_step v : decay_ok v = true -> fle (decay_f v) v.
Proof.
  unfold decay_ok, fle. intros H.
  apply andb_true_iff in H. destruct H as [H _].
  apply andb_true_iff in H. tauto.
Qed.

Lemma growth_ok_step v : growth_ok v = true -> fle v (growth_f v).
Proof. unfold growth_ok, fle. intros H. apply andb_true_iff in H. tauto. Qed.

Lemma decay_curve_step_1000 y :
  (2025 <= y)%Z -> fle (decay_curve 1000 (y + 1)) (decay_curve 1000 y).
Proof.
  intros H. destruct (Z.le_gt_cases 2040 y) as [H'|H'].
  - unfold decay_curve at 1. rewrite curve_succ by lia.
    rewrite decay_step_late by lia.
    apply decay_ok_step, decay_curve_tail_1000, H'.
  - apply (years_check_sound 15 2025
             (fun y => decay_curve 1000 (y + 1) <=? decay_curve 1000 y)).
    + vm_compute. reflexivity.
    + lia.
Qed.

Lemma decay_curve_step_24000 y :
  (2025 <= y)%Z -> fle (decay_curve 24000 (y + 1)) (decay_curve 24000 y).
Proof.
  intros H. destruct (Z.le_gt_cases 2040 y) as [H'|H'].
  - unfold decay_curve at 1. rewrite curve_succ by lia.
    rewrite decay_step_late by lia.
    apply decay_ok_step, decay_curve_tail_24000, H'.
  - apply (years_check_sound 15 2025
             (fun y => decay_curve 24000 (y + 1) <=? decay_curve 24000 y)).
    + vm_compute. reflexivity.
    + lia.
Qed.

Lemma growth_curve_step y :
  (2025 <= y)%Z -> fle (growth_curve y) (growth_curve (y + 1)).
Proof.
  intros H. destruct (Z.le_gt_cases 2040 y) as [H'|H'].
  - unfold growth_curve at 2. rewrite curve_succ by lia.
    rewrite growth_step_late by lia.
    apply growth_ok_step, growth_curve_tail, H'.
  - apply (years_check_sound 15 2025
             (fun y => growth_curve y <=? growth_curve (y + 1))).
    + vm_compute. reflexivity.
    + lia.
Qed.

(** C3: each curve equals its literal starting constant at the transition
    year: the density is 1.0 for every year up to 2024 and exactly 1.35 in
    2025, the power per unit is exactly 1000.0 and the cost per unit exactly
    24000.0 in 2025. *)
Theorem curves_at_transition_year :
  (forall year, (year <= 2024)%Z -> moores_law year = 1.0) /\
  moores_law 2025 = 1.35 /\
  power_efficiency 2025 = Ok 1000.0 /\
  cost_efficiency 2025 = Ok 24000.0.
Proof.
  split; [|repeat split; vm_compute; reflexivity].
  intros year H. unfold moores_law, BASE_YEAR.
  destruct (year <=? 2024)%Z eqn:E; [reflexivity | lia].
Qed.

Lemma curves_at_transition_year_witness :
  moores_law 1999 = 1.0 /\ moores_law 2025 = 1.35.
Proof.
  split.
  - apply (proj1 curves_at_transition_year). lia.
  - apply (proj1 (proj2 curves_at_transition_year)).
Defined.

(** C4: for all integer years [year2 > year1 >= 2025] the density does not
    decrease and the power and the cost per unit do not increase. *)
Theorem curves_monotone (year1 year2 : Z) :
  (2025 <= year1)%Z -> (year1 < year2)%Z ->
  fle (moores_law year1) (moores_law year2) /\
  (exists p1 p2,
      power_efficiency year1 = Ok p1 /\ power_efficiency year2 = Ok p2 /\
      fle p2 p1) /\
  (exists c1 c2,
      cost_efficiency year1 = Ok c1 /\ cost_efficiency year2 = Ok c2 /\
      fle c2 c1).
Proof.
  intros H1 H2. split; [|split].
  - rewrite !moores_law_curve.
    now apply (chain_increasing growth_curve 2025 growth_curve_step).
  - exists (decay_curve 1000 year1), (decay_curve 1000 year2).
    rewrite !power_efficiency_curve. repeat split.
    now apply (chain_decreasing (decay_curve 1000) 2025 decay_curve_step_1000).
  - exists (decay_curve 24000 year1), (decay_curve 24000 year2).
    rewrite !cost_efficiency_curve. repeat split.
    now apply (chain_decreasing (decay_curve 24000) 2025 decay_curve_step_24000).
Qed.

Lemma curves_monotone_witness :
  fle (moores_law 2030) (moores_law 2035) /\
  (exists p1 p2,
      power_efficiency 2030 = Ok p1 /\ power_efficiency 2035 = Ok p2 /\
      fle p2 p1) /\
  (exists c1 c2,
      cost_efficiency 2030 = Ok c1 /\ cost_efficiency 2035 = Ok c2 /\
      fle c2 c1).
Proof. apply (curves_monotone 2030 2035); lia. Defined.

(** ** Cost against power *)

(** C10, refuted as an equality of floats: in 2030 the cost per unit and 24
    times the power per unit differ in the last place. *)
Lemma cost_differs_from_24_power_in_2030 :
  power_efficiency 2030 = Ok 291.07778366169322 /\
  cost_efficiency 2030 = Ok 6985.8668078806377 /\
  24 * 291.07778366169322 = 6985.8668078806368 /\
  (6985.8668078806377 =? 24 * 291.07778366169322) = false.
Proof. repeat split; vm_compute; reflexivity. Qed.

(** Once caught at three units of the last place, both decays stay there. *)
Lemma decay_curve_stuck_1000 year :
  (6137 <= year)%Z -> decay_curve 1000 year = 0x3p-1074.
Proof.
  intros H. apply Leibniz.eqb_spec.
  apply (curve_tail decay_step decay_f 2025 6137 1000
           (fun v => Leibniz.eqb v 0x3p-1074) 1); try assumption.
  - intros; apply decay_step_late; lia.
  - lia.
  - vm_compute. reflexivity.
  - vm_compute. reflexivity.
Qed.

Lemma decay_curve_stuck_24000 year :
  (6154 <= year)%Z -> decay_curve 24000 year = 0x3p-1074.
Proof.
  intros H. apply Leibniz.eqb_spec.
  apply (curve_tail decay_step decay_f 2025 6154 24000
           (fun v => Leibniz.eqb v 0x3p-1074) 1); try assumption.
  - intros; apply decay_step_late; lia.
  - lia.
  - vm_compute. reflexivity.
  - vm_compute. reflexivity.
Qed.

(** The two decays side by side past 2040. *)
Lemma iterate_pair {A B : Type} (n : nat) (f : A -> A) (g : B -> B) (a : A) (b : B) :
  iterate n (fun ab : A * B => (f (fst ab), g (snd ab))) (a, b)
  = (iterate n f a, iterate n g b).
Proof.
  revert a b; induction n as [|n IH]; intros a b; cbn; [reflexivity | apply IH].
Qed.

Lemma decay_pair_late (k : nat) :
  (decay_curve 1000 (2040 + Z.of_nat k), decay_curve 24000 (2040 + Z.of_nat k))
  = iterate k (fun pc : float * float => (decay_f (fst pc), decay_f (snd pc)))
      (decay_curve 1000 2040, decay_curve 24000 2040).
Proof.
  rewrite iterate_pair. unfold decay_curve.
  rewrite !(curve_iterate decay_step decay_f 2025 2040);
    try lia; try (intros; now apply decay_step_late).
  reflexivity.
Qed.

Lemma decay_pair_range (P : float * float -> bool) (n : nat) :
  orbit_check n (fun pc : float * float => (decay_f (fst pc), decay_f (snd pc))) P
    (decay_curve 1000 2040, decay_curve 24000 2040) = true ->
  forall year, (2040 <= year <= 2040 + Z.of_nat n)%Z ->
               P (decay_curve 1000 year, decay_curve 24000 year) = true.
Proof.
  intros Hc year Hy.
  replace year with (2040 + Z.of_nat (Z.to_nat (year - 2040)))%Z by lia.
  rewrite decay_pair_late. apply (orbit_check_sound n); [exact Hc | lia].
Qed.

Lemma decay_pair_tail (P : float * float -> bool) (n : nat) :
  orbit_check n (fun pc : float * float => (decay_f (fst pc), decay_f (snd pc))) P
    (decay_curve 1000 2040, decay_curve 24000 2040) = true ->
  (let pc := iterate n (fun pc : float * float => (decay_f (fst pc), decay_f (snd pc)))
               (decay_curve 1000 2040, decay_curve 24000 2040) in
   (decay_f (fst pc), decay_f (snd pc)) = pc) ->
  forall year, (2040 <= year)%Z ->
               P (decay_curve 1000 year, decay_curve 24000 year) = true.
Proof.
  intros Hc Hfix year Hy.
  replace year with (2040 + Z.of_nat (Z.to_nat (year - 2040)))%Z by lia.
  rewrite decay_pair_late. now apply (orbit_all n).
Qed.

Lemma cost_close_to_24_power (bound : float) (last : Z) (year : Z) :
  years_check 15 2025
    (fun y => close_to_24 bound (decay_curve 1000 y, decay_curve 24000 y)) = true ->
  orbit_check (Z.to_nat (last - 2040))
    (fun pc : float * float => (decay_f (fst pc), decay_f (snd pc)))
    (close_to_24 bound) (decay_curve 1000 2040, decay_curve 24000 2040) = true ->
  (2040 <= last)%Z -> (2025 <= year <= last)%Z ->
  close_to_24 bound (decay_curve 1000 year, decay_curve 24000 year) = true.
Proof.
  intros Hearly Hlate Hlast Hy.
  destruct (Z.le_gt_cases 2040 year) as [H|H].
  - apply (decay_pair_range (close_to_24 bound) (Z.to_nat (last - 2040)) Hlate). lia.
  - apply (years_check_sound 15 2025
             (fun y => close_to_24 bound (decay_curve 1000 y, decay_curve 24000 y)) Hearly).
    lia.
Qed.

Lemma cost_between_power_and_25 (year : Z) :
  between_1_and_25 (decay_curve 1000 year, decay_curve 24000 year) = true.
Proof.
  destruct (Z.le_gt_cases 2040 year) as [H|H].
  - apply (decay_pair_tail between_1_and_25 (Z.to_nat 4200)); [| |exact H];
      vm_compute; reflexivity.
  - destruct (Z.le_gt_cases year 2025) as [H'|H'].
    + unfold decay_curve. rewrite !curve_base by lia. vm_compute. reflexivity.
    + apply (years_check_sound 15 2025
               (fun y => between_1_and_25 (decay_curve 1000 y, decay_curve 24000 y))).
      * vm_compute. reflexivity.
      * lia.
Qed.

(** C10 (amended): for every integer year both curves are the same decay
    (the same yearly improvement rates, knots and baseline branching)
    applied to 1000.0 and to 24000.0.  The cost equals 24 times the power
    exactly for every year up to 2029; the two differ by at most 2^-51 of
    the cost through 2063 and by at most 2^-46 of the cost through 5971;
    for every year the cost lies between the power and 25 times the power;
    and from 6154 on both are the subnormal [3 * 2^-1074], so that the cost
    equals the power and not 24 times it. *)
Theorem cost_power_same_decay (year : Z) :
  exists p c,
    power_efficiency year = Ok p /\ cost_efficiency year = Ok c /\
    p = decay_curve 1000 year /\ c = decay_curve 24000 year /\
    ((year <= 2029)%Z -> c = 24 * p) /\
    ((2025 <= year <= 2063)%Z -> fle (abs (c - 24 * p)) (0x1p-51 * c)) /\
    ((2025 <= year <= 5971)%Z -> fle (abs (c - 24 * p)) (0x1p-46 * c)) /\
    (fle p c /\ fle c (25 * p)) /\
    ((6154 <= year)%Z -> p = 0x3p-1074 /\ c = 0x3p-1074 /\ (c =? 24 * p) = false).
Proof.
  exists (decay_curve 1000 year), (decay_curve 24000 year).
  rewrite power_efficiency_curve, cost_efficiency_curve.
  split; [reflexivity|]. split; [reflexivity|].
  split; [reflexivity|]. split; [reflexivity|].
  split; [|split; [|split; [|split]]].
  - intros H. destruct (Z.le_gt_cases year 2025) as [H'|H'].
    + unfold decay_curve. rewrite !curve_base by lia. vm_compute. reflexivity.
    + apply Leibniz.eqb_spec.
      apply (years_check_sound 4 2026
               (fun y => Leibniz.eqb (decay_curve 24000 y) (24 * decay_curve 1000 y))).
      * vm_compute. reflexivity.
      * lia.
  - intros H.
    apply (cost_close_to_24_power 0x1p-51 2063 year); try lia; vm_compute; reflexivity.
  - intros H.
    apply (cost_close_to_24_power 0x1p-46 5971 year); try lia; vm_compute; reflexivity.
  - pose proof (cost_between_power_and_25 year) as H.
    unfold between_1_and_25 in H. apply andb_true_iff in H. exact H.
  - intros H.
    assert (Hp : decay_curve 1000 year = 0x3p-1074)
      by (apply decay_curve_stuck_1000; lia).
    assert (Hc : decay_curve 24000 year = 0x3p-1074)
      by (now apply decay_curve_stuck_24000).
    rewrite Hp, Hc. split; [reflexivity|]. split; [reflexivity|].
    vm_compute. reflexivity.
Qed.

Lemma cost_power_same_decay_witness :
  (exists p c,
      power_efficiency 2028 = Ok p /\ cost_efficiency 2028 = Ok c /\ c = 24 * p /\
      fle (abs (c - 24 * p)) (0x1p-51 * c)) /\
  (exists p c,
      power_efficiency 7000 = Ok p /\ cost_efficiency 7000 = Ok c /\ c = p).
Proof.
  split.
  - destruct (cost_power_same_decay 2028) as (p & c & Hp & Hc & _ & _ & He & Hr & _).
    exists p, c. repeat split; [exact Hp | exact Hc | apply He; lia | apply Hr; lia].
  - destruct (cost_power_same_decay 7000)
      as (p & c & Hp & Hc & _ & _ & _ & _ & _ & _ & Hs).
    exists p, c. split; [exact Hp|]. split; [exact Hc|].
    destruct Hs as (-> & -> & _); [lia | reflexivity].
Defined.

(** ** Zero watts *)

Lemma curve_range step f y0 H base (P : float -> bool) (n : nat) :
  (forall y v, (H < y)%Z -> step y v = f v) ->
  (y0 <= H)%Z ->
  orbit_check n f P (curve step y0 base H) = true ->
  forall year, (H <= year <= H + Z.of_nat n)%Z -> P (curve step y0 base year) = true.
Proof.
  intros Hstep Hle Hc year Hy.
  replace year with (H + Z.of_nat (Z.to_nat (year - H)))%Z by lia.
  rewrite (curve_iterate step f) by assumption.
  apply (orbit_check_sound n); [exact Hc | lia].
Qed.

(** With zero watts the throughput [0 * (2e15 * density)] is zero as long as
    [2e15 * density] is finite, through 5044, and NaN afterwards. *)
Lemma zero_flops_early year :
  (year <= 5044)%Z -> zero_flops (growth_curve year) = 0.
Proof.
  intros H. apply Leibniz.eqb_spec.
  change (zero_flops_is_zero (growth_curve year) = true).
  destruct (Z.le_gt_cases year 2024) as [H1|H1].
  - unfold growth_curve. rewrite curve_base by lia. vm_compute. reflexivity.
  - destruct (Z.le_gt_cases 2040 year) as [H2|H2].
    + apply (curve_range growth_step growth_f 2024 2040 1 zero_flops_is_zero
               (Z.to_nat 3004)).
      * intros; now apply growth_step_late.
      * lia.
      * vm_compute. reflexivity.
      * lia.
    + apply (years_check_sound 15 2025 (fun y => zero_flops_is_zero (growth_curve y))).
      * vm_compute. reflexivity.
      * lia.
Qed.

Lemma zero_flops_late year :
  (5045 <= year)%Z -> is_nan (zero_flops (growth_curve year)) = true.
Proof.
  apply (curve_tail growth_step growth_f 2024 5045 1 zero_flops_is_nan (Z.to_nat 200)).
  - intros; apply growth_step_late; lia.
  - lia.
  - vm_compute. reflexivity.
  - vm_compute. reflexivity.
Qed.

(** C1, refuted for "any year": with zero watts in 5045 the unit count is
    zero but the total throughput is NaN. *)
Lemma zero_watts_throughput_nan_in_5045 :
  exists c,
    watts_to_h100e 0 5045 = Ok c /\ h100e_count c = 0 /\
    flops_per_h100e c = infinity /\ is_nan (total_flops c) = true.
Proof.
  rewrite watts_to_h100e_eq. eexists. split; [reflexivity|].
  cbn [h100e_count flops_per_h100e total_flops].
  repeat split; vm_compute; reflexivity.
Qed.

Section ZeroWatts.

Variable float_pow : float -> Z -> result float.

(** C1 (amended): for watts = 0 the unit conversion returns for every year,
    with a unit count of 0; the total throughput is 0 for every year up to
    5044 (and NaN from 5045 on, where 2e15 times the density is infinite);
    and for every year the CapEx estimator raises instead of returning a NaN
    or an infinity: [ZeroDivisionError] from [total_capex / watts], unless
    the power [1.1 ** (year - 2025)] has already raised. *)
Theorem zero_watts_boundary (year : Z) :
  (exists c,
      watts_to_h100e 0 year = Ok c /\ h100e_count c = 0 /\
      ((year <= 5044)%Z -> total_flops c = 0) /\
      ((5045 <= year)%Z -> is_nan (total_flops c) = true)) /\
  (forall p, float_pow 1.1 (year - 2025) = Ok p ->
             calculate_capex float_pow 0 year = Raise ZeroDivisionError) /\
  (forall e, float_pow 1.1 (year - 2025) = Raise e ->
             calculate_capex float_pow 0 year = Raise e).
Proof.
  assert (Hz : 0 / decay_curve 1000 year = 0).
  { apply zero_div_pos.
    pose proof (decay_curve_positive_1000 year) as H.
    unfold positive_finite in H. apply andb_true_iff in H. tauto. }
  split; [|split].
  - rewrite watts_to_h100e_eq. eexists. split; [reflexivity|].
    cbn [h100e_count total_flops]. rewrite Hz, moores_law_curve.
    split; [reflexivity|]. split.
    + apply zero_flops_early.
    + apply zero_flops_late.
  - intros p Hp. rewrite calculate_capex_eq, Hp. reflexivity.
  - intros e He. rewrite calculate_capex_eq, He. reflexivity.
Qed.

End ZeroWatts.

Lemma zero_watts_boundary_witness :
  (exists c,
      watts_to_h100e 0 2030 = Ok c /\ h100e_count c = 0 /\ total_flops c = 0) /\
  calculate_capex float_pow_model 0 2030 = Raise ZeroDivisionError.
Proof.
  destruct (zero_watts_boundary float_pow_model 2030) as [(c & Hc & Hn & Hf & _) [Hp _]].
  split.
  - exists c. repeat split; [exact Hc | exact Hn | apply Hf; lia].
  - apply (Hp 1.6105100000000006). vm_compute. reflexivity.
Defined.

(** ** The sign of a quotient *)

Local Open Scope Z_scope.

Lemma shr_fexp_nonneg (m e : Z) (l : location) :
  0 <= m -> 0 <= shr_m (fst (shr_fexp prec emax m e l)).
Proof.
  intros Hm. unfold shr_fexp, shr.
  destruct (IntDef.Z.sub (fexp prec emax (IntDef.Z.add (Zdigits2 m) e)) e) as [|n|n];
    cbn [fst]; rewrite ?shr_record_of_loc_m; try assumption.
  rewrite iter_shr_1_div by (rewrite shr_record_of_loc_m; assumption).
  rewrite shr_record_of_loc_m. apply Z.div_pos; [assumption|].
  apply Z.pow_pos_nonneg; lia.
Qed.

Lemma binary_round_aux_nonneg (s : bool) (m e : Z) (l : location) :
  0 <= m -> of_sign s (binary_round_aux prec emax s m e l).
Proof.
  intros Hm. unfold binary_round_aux.
  pose proof (shr_fexp_nonneg m e l Hm) as H1.
  destruct (shr_fexp prec emax m e l) as [mrs' e'] eqn:E1. cbn [fst] in H1.
  pose proof (round_nearest_even_ge (shr_m mrs') (loc_of_shr_record mrs')) as Hr.
  assert (H2 : 0 <= round_nearest_even (shr_m mrs') (loc_of_shr_record mrs')) by lia.
  pose proof (shr_fexp_nonneg _ e' loc_Exact H2) as H3.
  destruct (shr_fexp prec emax
              (round_nearest_even (shr_m mrs') (loc_of_shr_record mrs')) e' loc_Exact)
    as [mrs'' e''] eqn:E3.
  cbn [fst] in H3.
  destruct (shr_m mrs'') as [|m3|m3]; try lia; [reflexivity|].
  destruct (IntDef.Z.leb e'' (IntDef.Z.sub emax prec)); reflexivity.
Qed.

Lemma SFdiv_core_binary_nonneg (m1 : positive) (e1 : Z) (m2 : positive) (e2 : Z) :
  0 <= fst (fst (SFdiv_core_binary prec emax (Zpos m1) e1 (Zpos m2) e2)).
Proof.
  unfold SFdiv_core_binary.
  set (s := IntDef.Z.sub (IntDef.Z.sub e1 e2) _).
  set (m' := match s with Z0 => Zpos m1 | Zpos _ => _ | Zneg _ => _ end).
  assert (Hm' : 0 <= m').
  { unfold m'. destruct s as [|k|k]; try lia.
    change (0 <= Z.shiftl (Zpos m1) (Zpos k)). apply Z.shiftl_nonneg. lia. }
  pose proof (Z.div_pos m' (Zpos m2) Hm' ltac:(lia)) as Hq.
  unfold Z.div in Hq.
  change (IntDef.Z.div_eucl m' (Zpos m2)) with (Z.div_eucl m' (Zpos m2)).
  destruct (Z.div_eucl m' (Zpos m2)) as [q r]. exact Hq.
Qed.

Local Close Scope Z_scope.

(** A negative value divided by a positive finite one compares [<= 0]. *)
Lemma fdiv_neg_pos (a b : float) :
  (a <? 0) = true -> positive_finite b = true -> (a / b <=? 0) = true.
Proof.
  unfold positive_finite. intros Ha Hb. apply andb_true_iff in Hb.
  destruct Hb as [Hb Hb'].
  rewrite ltb_spec, Prim2SF_zero in Ha, Hb.
  rewrite ltb_spec, Prim2SF_infinity in Hb'.
  rewrite leb_spec, div_spec, Prim2SF_zero.
  destruct (Prim2SF a) as [sa|sa| |sa ma ea]; try destruct sa; try discriminate;
    destruct (Prim2SF b) as [sb|sb| |sb mb eb]; try destruct sb; try discriminate;
    try reflexivity.
  unfold SF64div, SFdiv.
  pose proof (SFdiv_core_binary_nonneg ma ea mb eb) as Hq.
  destruct (SFdiv_core_binary prec emax (Zpos ma) ea (Zpos mb) eb) as [[q e'] l].
  cbn [fst] in Hq.
  pose proof (binary_round_aux_nonneg (xorb true false) q e' l Hq) as Hs.
  destruct (binary_round_aux prec emax (xorb true false) q e' l) as [s|s| |s m e];
    cbn in Hs; try contradiction; subst; reflexivity.
Qed.

(** ** Halving a value below one *)

Local Open Scope Z_scope.

Lemma digits2_pos_upper (m : positive) : Zpos m < 2 ^ Zpos (digits2_pos m).
Proof.
  induction m as [m IH|m IH|]; cbn [digits2_pos].
  - rewrite Pos2Z.inj_succ, Z.pow_succ_r by lia. lia.
  - rewrite Pos2Z.inj_succ, Z.pow_succ_r by lia. lia.
  - cbn. lia.
Qed.

Lemma digits2_pos_le (q : positive) (k : Z) :
  0 <= k -> Zpos q < 2 ^ k -> Zpos (digits2_pos q) <= k.
Proof.
  intros Hk Hq. pose proof (digits2_pos_lower q) as Hl.
  destruct (Z.le_gt_cases (Zpos (digits2_pos q)) k) as [H|H]; [exact H|].
  assert (2 ^ k <= 2 ^ (Zpos (digits2_pos q) - 1)) by (apply Z.pow_le_mono_r; lia).
  lia.
Qed.

Lemma round_nearest_even_le (m : Z) (l : location) : round_nearest_even m l <= m + 1.
Proof.
  unfold round_nearest_even. destruct l as [|[]]; try lia.
  destruct (Z.even m); lia.
Qed.

Lemma digits2_pos_shift52 (m : positive) :
  Zpos (digits2_pos (4503599627370496 * m)) = Zpos (digits2_pos m) + 52.
Proof. cbn [Pos.mul digits2_pos]. lia. Qed.

Lemma shr_fexp_noshift (m : positive) (e : Z) :
  fexp prec emax (Zpos (digits2_pos m) + e) = e ->
  shr_fexp prec emax (Zpos m) e loc_Exact =
  ({| shr_m := Zpos m; shr_r := false; shr_s := false |}, e).
Proof.
  intros H. unfold shr_fexp, Zdigits2.
  change (IntDef.Z.add (Z.pos (digits2_pos m)) e) with (Zpos (digits2_pos m) + e).
  rewrite H.
  change (IntDef.Z.sub e e) with (e - e). rewrite Z.sub_diag. reflexivity.
Qed.

Lemma SFmul_half_lt (m : positive) (e : Z) :
  valid_binary (S754_finite false m e) = true ->
  e <= -53 ->
  SFltb (SFmul prec emax (S754_finite false 4503599627370496 (-53))
           (S754_finite false m e))
        (S754_finite false 4503599627370496 (-53)) = true.
Proof.
  intros Hv He.
  unfold valid_binary, bounded, canonical_mantissa in Hv.
  apply andb_true_iff in Hv. destruct Hv as [Hc _].
  apply Z.eqb_eq in Hc. rewrite fexp_eq in Hc.
  pose proof (digits2_pos_shift52 m) as Hd.
  unfold SFmul, binary_round_aux. cbn [xorb].
  set (M := (4503599627370496 * m)%positive) in *.
  change (IntDef.Z.add (-53) e) with (-53 + e).
  destruct (Z.eq_dec e (-1074)) as [->|Hne].
  - (* the operand is at the bottom exponent: one bit is rounded away *)
    assert (Hdm : Zpos (digits2_pos m) <= 53) by lia.
    pose proof (digits2_pos_upper m) as Hm.
    assert (Hm' : Zpos m < 2 ^ 53).
    { eapply Z.lt_le_trans; [exact Hm|]. apply Z.pow_le_mono_r; lia. }
    assert (E1 : shr_fexp prec emax (Zpos M) (-53 + -1074) loc_Exact =
                 (iter_pos shr_1 53 (shr_record_of_loc (Zpos M) loc_Exact), -1074)).
    { unfold shr_fexp, Zdigits2.
      change (IntDef.Z.add (Z.pos (digits2_pos M)) (-53 + -1074))
        with (Zpos (digits2_pos M) + (-53 + -1074)).
      rewrite fexp_eq, Hd.
      change (IntDef.Z.sub ?a ?b) with (a - b).
      replace (Z.max (Z.pos (digits2_pos m) + 52 + (-53 + -1074) - 53) (-1074)
               - (-53 + -1074)) with 53 by lia.
      reflexivity. }
    rewrite E1. clear E1.
    set (mrs' := iter_pos shr_1 53 (shr_record_of_loc (Zpos M) loc_Exact)).
    assert (H1 : shr_m mrs' = Zpos m / 2).
    { unfold mrs'.
      rewrite iter_shr_1_div by (rewrite shr_record_of_loc_m; lia).
      rewrite shr_record_of_loc_m. unfold M.
      rewrite Pos2Z.inj_mul.
      change (Zpos 4503599627370496) with (2 ^ 52).
      change (2 ^ 53) with (2 ^ 52 * 2).
      rewrite Z.div_mul_cancel_l by lia. reflexivity. }
    clearbody mrs'.
    pose proof (round_nearest_even_ge (shr_m mrs') (loc_of_shr_record mrs')) as Hge.
    pose proof (round_nearest_even_le (shr_m mrs') (loc_of_shr_record mrs')) as Hle.
    assert (Hhalf : 0 <= Zpos m / 2 < 2 ^ 52).
    { split; [apply Z.div_pos; lia|].
      apply Z.div_lt_upper_bound; [lia|]. exact Hm'. }
    destruct (round_nearest_even (shr_m mrs') (loc_of_shr_record mrs')) as [|q|q];
      [reflexivity| |lia].
    assert (Hq : Zpos (digits2_pos q) <= 53).
    { apply digits2_pos_le; [lia|].
      change (2 ^ 53) with (2 ^ 52 * 2). lia. }
    rewrite shr_fexp_noshift by (rewrite fexp_eq; lia).
    reflexivity.
  - (* a normal operand: the product is exact *)
    assert (Hdm : Zpos (digits2_pos m) = 53) by lia.
    assert (Hn : shr_fexp prec emax (Zpos M) (-53 + e) loc_Exact =
                 ({| shr_m := Zpos m; shr_r := false; shr_s := false |}, e - 1)).
    { unfold shr_fexp, Zdigits2.
      change (IntDef.Z.add (Z.pos (digits2_pos M)) (-53 + e))
        with (Zpos (digits2_pos M) + (-53 + e)).
      rewrite fexp_eq, Hd, Hdm.
      change (IntDef.Z.sub ?a ?b) with (a - b).
      replace (Z.max (53 + 52 + (-53 + e) - 53) (-1074) - (-53 + e)) with 52 by lia.
      unfold shr. cbn [shr_record_of_loc]. apply f_equal2; [|lia].
      unfold M. cbn [Pos.mul iter_pos shr_1]. reflexivity. }
    rewrite Hn. cbn [shr_m loc_of_shr_record round_nearest_even].
    assert (Hf : fexp prec emax (Zpos (digits2_pos m) + (e - 1)) = e - 1)
      by (rewrite fexp_eq, Hdm; lia).
    rewrite (shr_fexp_noshift m (e - 1) Hf).
    cbn [shr_m].
    change (IntDef.Z.leb (e - 1) (IntDef.Z.sub emax prec)) with (e - 1 <=? 971).
    destruct (Z.leb_spec (e - 1) 971) as [_|H]; [|lia].
    unfold SFltb, SFcompare.
    destruct (Z.compare_spec (e - 1) (-53)) as [H|H|H]; first [lia | reflexivity].
Qed.

Local Close Scope Z_scope.

Lemma Prim2SF_half : Prim2SF 0.5 = S754_finite false 4503599627370496 (-53).
Proof. vm_compute. reflexivity. Qed.

Lemma Prim2SF_one : Prim2SF 1 = S754_finite false 4503599627370496 (-52).
Proof. vm_compute. reflexivity. Qed.

(** A positive float below one has an exponent of at most -53. *)
Lemma below_one_exponent (m : positive) (e : Z) :
  valid_binary (S754_finite false m e) = true ->
  SFltb (S754_finite false m e) (S754_finite false 4503599627370496 (-52)) = true ->
  (e <= -53)%Z.
Proof.
  intros Hv Hlt.
  unfold valid_binary, bounded, canonical_mantissa in Hv.
  apply andb_true_iff in Hv. destruct Hv as [Hc _].
  apply Z.eqb_eq in Hc. rewrite fexp_eq in Hc.
  unfold SFltb, SFcompare in Hlt.
  destruct (Z.compare_spec e (-52)) as [H|H|H]; [|lia|discriminate].
  exfalso.
  destruct (PosDef.Pos.compare_cont Eq m 4503599627370496) eqn:Ecmp; try discriminate.
  clear Hlt.
  pose proof (Pos.compare_cont_spec m 4503599627370496 Eq) as Hs.
  rewrite Ecmp in Hs.
  destruct (Pos.compare_spec m 4503599627370496) as [H'|H'|H']; try discriminate.
  pose proof (digits2_pos_lower m) as Hl.
  assert (Hd : Zpos (digits2_pos m) = 53%Z) by (clear H' Hl; lia).
  rewrite Hd in Hl. change (2 ^ (53 - 1))%Z with 4503599627370496%Z in Hl.
  apply Pos2Z.pos_lt_pos in H'.
  exact (proj1 (Z.le_ngt _ _) Hl H').
Qed.

(** Half of a value below one is below one half: [0.5 * p] is exact (or,
    at the bottom of the subnormal range, rounded within it). *)
Lemma fmul_half_lt (p : float) : (p <? 1) = true -> (0.5 * p <? 0.5) = true.
Proof.
  rewrite !ltb_spec, mul_spec, Prim2SF_half, Prim2SF_one.
  pose proof (Prim2SF_valid p) as Hv.
  destruct (Prim2SF p) as [s|s| |s m e]; intros Hlt.
  - destruct s; reflexivity.
  - destruct s; [reflexivity | discriminate Hlt].
  - discriminate Hlt.
  - destruct s.
    + unfold SF64mul, SFmul.
      match goal with
      | |- context [binary_round_aux ?a ?b ?c ?d ?e0 ?f] =>
          assert (Hs : of_sign c (binary_round_aux a b c d e0 f))
            by (apply binary_round_aux_nonneg; apply Pos2Z.is_nonneg);
          destruct (binary_round_aux a b c d e0 f) as [s|s| |s m' e']
      end; cbn in Hs; try contradiction; subst; reflexivity.
    + apply SFmul_half_lt; [exact Hv | exact (below_one_exponent m e Hv Hlt)].
Qed.

Local Open Scope string_scope.
Local Open Scope float_scope.

(** ** The scenario runner *)

Section ScenarioFacts.

Variable float_pow : float -> Z -> result float.

(** What a returned scenario holds. *)
Lemma run_scenario_inv (watts : float) (year : Z) (energy_mix : EnergyMix) (s : Scenario) :
  run_scenario float_pow watts year energy_mix = Ok s ->
  s_watts s = watts /\
  s_year s = year /\
  normalize_mix energy_mix = Ok (s_energy_mix s) /\
  watts_to_h100e watts year = Ok (s_compute s) /\
  calculate_capex float_pow watts year = Ok (s_capex s) /\
  calculate_infrastructure watts (s_energy_mix s) = Ok (s_infrastructure s) /\
  s_tokens s = estimate_token_output (h100e_count (s_compute s)) None /\
  calculate_global_fractions watts (total_capex (s_capex s)) (s_infrastructure s)
    = Ok (s_global_fractions s).
Proof.
  unfold run_scenario.
  destruct (normalize_mix energy_mix) as [mix'|] ; cbn [bind]; [|discriminate].
  destruct (watts_to_h100e watts year) as [c|]; cbn [bind]; [|discriminate].
  destruct (calculate_capex float_pow watts year) as [x|]; cbn [bind]; [|discriminate].
  destruct (calculate_infrastructure watts mix') as [i|] eqn:Ei; cbn [bind]; [|discriminate].
  destruct (calculate_global_fractions watts (total_capex x) i) as [g|] eqn:Eg;
    cbn [bind]; [|discriminate].
  intros [= <-]. cbn. repeat split; assumption.
Qed.

(** C2, refuted: a negative power budget is not rejected. *)
Lemma negative_watts_accepted :
  exists s,
    run_scenario float_pow_model (-1000) 2025 [("solar", 0.5); ("gas", 0.5)] = Ok s /\
    s_watts s = -1000 /\
    h100e_count (s_compute s) = -1 /\
    total_capex (s_capex s) = -36000 /\
    tokens_per_second (s_tokens s) = -5000.
Proof. eexists. split; [vm_compute; reflexivity|]. repeat split. Qed.

(** C2 (amended): the pipeline validates nothing.  For every negative watts,
    every year and every mix, [run_scenario] returns a scenario computed from
    the negative value (unless the power [1.1 ** (year - 2025)%Z] raises): it
    echoes the negative watts, and its unit count is that value divided by
    the power per unit, which compares [<= 0]. *)
Theorem negative_watts_not_rejected (watts : float) (year : Z) (energy_mix : EnergyMix)
  (p : float) :
  flt watts 0 ->
  float_pow 1.1 (year - 2025)%Z = Ok p ->
  exists s wpu,
    run_scenario float_pow watts year energy_mix = Ok s /\
    s_watts s = watts /\
    power_efficiency year = Ok wpu /\
    h100e_count (s_compute s) = watts / wpu /\
    fle (h100e_count (s_compute s)) 0 /\
    total_mw (s_infrastructure s) = watts / 1e6.
Proof.
  intros Hneg Hp.
  destruct (run_scenario_ok float_pow watts year energy_mix p
              (flt_neg_nonzero watts Hneg) Hp)
    as (s & Hs & Hw & _ & _ & Hc & _ & Hi & _).
  exists s, (decay_curve 1000 year).
  rewrite watts_to_h100e_eq in Hc. injection Hc as Hc.
  rewrite calculate_infrastructure_eq in Hi. injection Hi as Hi.
  rewrite <- Hc, <- Hi. cbn [h100e_count total_mw].
  repeat split; try assumption.
  - apply power_efficiency_curve.
  - apply fdiv_neg_pos; [exact Hneg | apply decay_curve_positive_1000].
Qed.

End ScenarioFacts.

Lemma negative_watts_not_rejected_witness :
  exists s wpu,
    run_scenario float_pow_model (-5e9) 2030 [("gas", 1.0)] = Ok s /\
    s_watts s = -5e9 /\
    power_efficiency 2030 = Ok wpu /\
    h100e_count (s_compute s) = -5e9 / wpu /\
    fle (h100e_count (s_compute s)) 0 /\
    total_mw (s_infrastructure s) = -5e9 / 1e6.
Proof.
  apply (negative_watts_not_rejected float_pow_model (-5e9) 2030 [("gas", 1.0)]
           1.6105100000000006).
  - vm_compute. reflexivity.
  - vm_compute. reflexivity.
Defined.

(** C5: the runner normalises the mix by the sum of its shares, so the mix
    {solar: 2, gas: 2} gives, for every watts and year, the very result of
    {solar: 0.5, gas: 0.5}: the same scenario in every field (it holds the
    mix {solar: 0.5, gas: 0.5}) or the same exception. *)
Theorem normalized_mix_same_scenario (float_pow : float -> Z -> result float)
  (watts : float) (year : Z) :
  normalize_mix [("solar", 2); ("gas", 2)] = Ok [("solar", 2 / 4); ("gas", 2 / 4)] /\
  run_scenario float_pow watts year [("solar", 2); ("gas", 2)] =
  run_scenario float_pow watts year [("solar", 0.5); ("gas", 0.5)] /\
  (forall s,
      run_scenario float_pow watts year [("solar", 2); ("gas", 2)] = Ok s ->
      s_energy_mix s = [("solar", 0.5); ("gas", 0.5)]) /\
  (forall p,
      (watts =? 0) = false -> float_pow 1.1 (year - 2025)%Z = Ok p ->
      exists s, run_scenario float_pow watts year [("solar", 2); ("gas", 2)] = Ok s).
Proof.
  assert (Hn : normalize_mix [("solar", 2); ("gas", 2)]
               = normalize_mix [("solar", 0.5); ("gas", 0.5)])
    by (vm_compute; reflexivity).
  split; [vm_compute; reflexivity|]. split; [|split].
  - unfold run_scenario. now rewrite Hn.
  - intros s Hs. apply run_scenario_inv in Hs.
    destruct Hs as (_ & _ & Hm & _).
    assert (Hv : normalize_mix [("solar", 2); ("gas", 2)]
                 = Ok [("solar", 0.5); ("gas", 0.5)]) by (vm_compute; reflexivity).
    rewrite Hv in Hm. now injection Hm as <-.
  - intros p Hw Hp.
    destruct (run_scenario_ok float_pow watts year [("solar", 2); ("gas", 2)] p Hw Hp)
      as (s & Hs & _).
    now exists s.
Qed.

Lemma normalized_mix_same_scenario_witness :
  exists s,
    run_scenario float_pow_model 100e9 2030 [("solar", 2); ("gas", 2)] = Ok s /\
    run_scenario float_pow_model 100e9 2030 [("solar", 0.5); ("gas", 0.5)] = Ok s /\
    s_energy_mix s = [("solar", 0.5); ("gas", 0.5)].
Proof.
  destruct (normalized_mix_same_scenario float_pow_model 100e9 2030)
    as (_ & He & Hm & Hex).
  destruct (Hex 1.6105100000000006) as [s Hs];
    [vm_compute; reflexivity | vm_compute; reflexivity |].
  exists s. split; [exact Hs|]. split; [now rewrite <- He | now apply Hm].
Defined.

(** C6, refuted as stated: shares of opposite sign that cancel sum to zero,
    are left as they are, and give equipment that is not zero (16 million PV
    modules and minus 1000 turbines at one gigawatt); and with infinite watts
    even the all-zero mix gives NaN counts. *)
Lemma zero_sum_mix_nonzero_equipment :
  dict_sum [("solar", 1); ("gas", -1)] = 0 /\
  (exists s,
      run_scenario float_pow_model 1e9 2030 [("solar", 1); ("gas", -1)] = Ok s /\
      s_energy_mix s = [("solar", 1); ("gas", -1)] /\
      pv_modules (s_infrastructure s) = 16000000 /\
      batteries_mwh (s_infrastructure s) = 16000 /\
      turbines (s_infrastructure s) = -1000) /\
  (exists i,
      calculate_infrastructure infinity [("solar", 0); ("gas", 0)] = Ok i /\
      pv_modules i = nan /\ batteries_mwh i = nan /\ turbines i = nan).
Proof.
  split; [vm_compute; reflexivity|]. split.
  - eexists. split; [vm_compute; reflexivity|].
    repeat split; vm_compute; reflexivity.
  - eexists. split; [vm_compute; reflexivity|].
    repeat split; vm_compute; reflexivity.
Qed.

(** C6 (amended): when the shares of the mix sum to zero, the runner leaves
    the mix as it is, without dividing and without an error, and the
    infrastructure estimator returns; it returns zero PV modules, batteries
    and turbines when, besides, no share is negative and the megawatt figure
    is finite. *)
Theorem zero_sum_mix_unchanged (float_pow : float -> Z -> result float)
  (watts : float) (year : Z) (energy_mix : EnergyMix) :
  feq (dict_sum energy_mix) 0 ->
  normalize_mix energy_mix = Ok energy_mix /\
  (exists i,
      calculate_infrastructure watts energy_mix = Ok i /\
      (Forall (fun kv => fle 0 (snd kv)) energy_mix ->
       is_finite (total_mw i) = true ->
       feq (pv_modules i) 0 /\ feq (batteries_mwh i) 0 /\ feq (turbines i) 0)) /\
  (forall s,
      run_scenario float_pow watts year energy_mix = Ok s ->
      s_energy_mix s = energy_mix /\
      calculate_infrastructure watts energy_mix = Ok (s_infrastructure s)).
Proof.
  intros Hsum.
  assert (Hnorm : normalize_mix energy_mix = Ok energy_mix).
  { rewrite normalize_mix_eq. now rewrite (feq_zero_not_pos _ Hsum). }
  split; [exact Hnorm|]. split.
  - rewrite calculate_infrastructure_eq. eexists. split; [reflexivity|].
    cbn [total_mw pv_modules batteries_mwh turbines]. intros Hnn Hfin.
    pose proof (dict_sum_zero energy_mix Hnn Hsum) as Hall.
    pose proof (dict_get_zero energy_mix "solar" Hall) as Hsolar.
    pose proof (dict_get_zero energy_mix "gas" Hall) as Hgas.
    pose proof (fmul_zero_r _ _ Hfin Hsolar) as H1.
    pose proof (fmul_zero_r _ _ Hfin Hgas) as H2.
    assert (H3 : feq (watts / 1e6 * dict_get energy_mix "solar" 0 * 4) 0)
      by (apply fmul_zero_l; [exact H1 | reflexivity]).
    unfold feq. repeat split; apply fmul_zero_l; try assumption; reflexivity.
  - intros s Hs. apply run_scenario_inv in Hs.
    destruct Hs as (_ & _ & Hm & _ & _ & Hi & _).
    rewrite Hnorm in Hm. injection Hm as Hm. rewrite <- Hm in Hi. now split.
Qed.

Lemma zero_sum_mix_unchanged_witness :
  normalize_mix [("solar", 0); ("gas", 0)] = Ok [("solar", 0); ("gas", 0)] /\
  exists i,
    calculate_infrastructure 100e9 [("solar", 0); ("gas", 0)] = Ok i /\
    feq (pv_modules i) 0 /\ feq (batteries_mwh i) 0 /\ feq (turbines i) 0.
Proof.
  destruct (zero_sum_mix_unchanged float_pow_model 100e9 2030 [("solar", 0); ("gas", 0)])
    as (Hn & (i & Hi & Hz) & _).
  - reflexivity.
  - split; [exact Hn|]. exists i. split; [exact Hi|]. apply Hz.
    + repeat constructor.
    + rewrite calculate_infrastructure_eq in Hi. injection Hi as <-. reflexivity.
Defined.

(** C7: the transformer and switchgear counts depend on the watts alone: for
    every watts and every two mixes they are [(watts / 1e6) * 0.5] and
    [(watts / 1e6) * 2.0] under both, and at 100e9 watts the transformer count
    is 50000. *)
Theorem grid_equipment_independent_of_mix (watts : float) (mix1 mix2 : EnergyMix) :
  (exists i1 i2,
      calculate_infrastructure watts mix1 = Ok i1 /\
      calculate_infrastructure watts mix2 = Ok i2 /\
      transformers i1 = watts / 1e6 * 0.5 /\
      switchgear i1 = watts / 1e6 * 2.0 /\
      transformers i2 = transformers i1 /\
      switchgear i2 = switchgear i1) /\
  (exists i,
      calculate_infrastructure 100e9 mix1 = Ok i /\ transformers i = 50000).
Proof.
  split.
  - rewrite !calculate_infrastructure_eq. do 2 eexists.
    repeat split; reflexivity.
  - rewrite calculate_infrastructure_eq. eexists. split; [reflexivity|].
    vm_compute. reflexivity.
Qed.

(** C9: for every unit count the token estimator returns
    [unit_count * utilization * 10000] tokens per second, with a utilization
    of 0.5 when the argument is left out, as it is on the runner's call, and
    31,557,600 times that per year. *)
Theorem token_output_formula (float_pow : float -> Z -> result float)
  (unit_count utilization : float) :
  tokens_per_second (estimate_token_output unit_count (Some utilization))
    = unit_count * utilization * 10000 /\
  annual_tokens (estimate_token_output unit_count (Some utilization))
    = tokens_per_second (estimate_token_output unit_count (Some utilization))
      * 31557600 /\
  tokens_per_second (estimate_token_output unit_count None)
    = unit_count * 0.5 * 10000 /\
  annual_tokens (estimate_token_output unit_count None)
    = unit_count * 0.5 * 10000 * 31557600 /\
  (forall watts year energy_mix s,
      run_scenario float_pow watts year energy_mix = Ok s ->
      tokens_per_second (s_tokens s) = h100e_count (s_compute s) * 0.5 * 10000 /\
      annual_tokens (s_tokens s) = tokens_per_second (s_tokens s) * 31557600).
Proof.
  repeat split; try reflexivity;
    apply run_scenario_inv in H; destruct H as (_ & _ & _ & _ & _ & _ & Ht & _);
    rewrite Ht; reflexivity.
Qed.

Lemma token_output_formula_witness :
  exists s,
    run_scenario float_pow_model 100e9 2030 [("solar", 0.3); ("gas", 0.7)] = Ok s /\
    tokens_per_second (s_tokens s) = h100e_count (s_compute s) * 0.5 * 10000 /\
    annual_tokens (s_tokens s) = tokens_per_second (s_tokens s) * 31557600.
Proof.
  destruct (run_scenario_ok float_pow_model 100e9 2030 [("solar", 0.3); ("gas", 0.7)]
              1.6105100000000006) as (s & Hs & _);
    [vm_compute; reflexivity | vm_compute; reflexivity |].
  exists s. split; [exact Hs|].
  exact (proj2 (proj2 (proj2 (proj2
           (token_output_formula float_pow_model 0 0)))) _ _ _ s Hs).
Defined.

(** ** The accuracy of the power and the ratio below one half *)

Lemma Qltb_lt (a b : Q) : Qltb a b = true -> (a < b)%Q.
Proof.
  unfold Qltb. intros H. apply negb_true_iff in H.
  apply Qnot_le_lt. intros Hle. apply Qle_bool_iff in Hle. congruence.
Qed.

Lemma Prim2SF_1_1 : Prim2SF 1.1 = S754_finite false 4953959590107546 (-52).
Proof. vm_compute. reflexivity. Qed.

(** A negative power of 1.1 is at most 1/1.1, which is below 15/16. *)
Lemma exact_pow_negative (n : Z) (q : Q) :
  (n < 0)%Z -> exact_pow 1.1 n = Some q -> (q <= 15 # 16)%Q.
Proof.
  intros Hn. unfold exact_pow. rewrite Prim2SF_1_1. cbn [SF2Q]. intros [= <-].
  apply (Qle_trans _ ((inject_Z 4953959590107546 * 2 ^ (-52)) ^ (-1))%Q).
  - apply Qpower_le_compat_l; [lia|].
    apply Qle_bool_iff. vm_compute. reflexivity.
  - apply Qle_bool_iff. vm_compute. reflexivity.
Qed.

(** A normal float of exponent at least -52 and full mantissa is so large
    that one unit less is still above 15/16. *)
Lemma above_one_minus_ulp (m : positive) (e : Z) :
  (-52 <= e)%Z -> (4503599627370496 <= Zpos m)%Z ->
  (inject_Z (Zpos m) * 2 ^ e < (15 # 16) + 2 ^ e)%Q -> False.
Proof.
  intros He Hm Hlt.
  assert (Hu : (2 ^ (-52) <= 2 ^ e)%Q).
  { apply Qpower_le_compat_l; [exact He|]. apply Qle_bool_iff. reflexivity. }
  assert (Hm' : (inject_Z 4503599627370496 <= inject_Z (Zpos m))%Q).
  { rewrite <- Zle_Qle. exact Hm. }
  set (v := (2 ^ e)%Q) in *. set (x := inject_Z (Zpos m)) in *.
  assert (Hv0 : (0 < v)%Q).
  { apply (Qlt_le_trans _ (2 ^ (-52))%Q); [reflexivity | exact Hu]. }
  assert (H1 : ((inject_Z 4503599627370496 - 1) * v <= (x - 1) * v)%Q).
  { apply Qmult_le_compat_r; [|now apply Qlt_le_weak].
    unfold Qminus. apply Qplus_le_l. exact Hm'. }
  assert (H2 : ((inject_Z 4503599627370496 - 1) * 2 ^ (-52)
                <= (inject_Z 4503599627370496 - 1) * v)%Q).
  { apply Qmult_le_l; [reflexivity | exact Hu]. }
  assert (H3 : ((15 # 16) < (inject_Z 4503599627370496 - 1) * 2 ^ (-52))%Q)
    by reflexivity.
  assert (H4 : ((x - 1) * v < 15 # 16)%Q).
  { apply (Qplus_lt_l _ _ v).
    setoid_replace ((x - 1) * v + v)%Q with (x * v)%Q by ring. exact Hlt. }
  apply (Qlt_irrefl (15 # 16)).
  eapply Qlt_le_trans; [exact H3|].
  eapply Qle_trans; [exact H2|].
  eapply Qle_trans; [exact H1|]. now apply Qlt_le_weak.
Qed.

(** A float within one unit in the last place of a value of at most 15/16 is
    below one. *)
Lemma within_one_ulp_below_one (q : Q) (p : float) :
  (q <= 15 # 16)%Q -> within_one_ulp q p = true -> (p <? 1) = true.
Proof.
  intros Hq. unfold within_one_ulp.
  rewrite ltb_spec, Prim2SF_one.
  pose proof (Prim2SF_valid p) as Hv.
  destruct (Prim2SF p) as [s|s| |s m e]; intros Hw; try discriminate Hw.
  - destruct s; reflexivity.
  - destruct s; [reflexivity|].
    apply Qltb_lt in Hw. apply Qabs_diff_Qlt_condition in Hw.
    destruct Hw as [_ Hw].
    assert (Hlt : (inject_Z (Zpos m) * 2 ^ e < (15 # 16) + 2 ^ e)%Q).
    { eapply Qlt_le_trans; [exact Hw|]. now apply Qplus_le_l. }
    clear Hw.
    unfold valid_binary, bounded, canonical_mantissa in Hv.
    apply andb_true_iff in Hv. destruct Hv as [Hc _].
    apply Z.eqb_eq in Hc. rewrite fexp_eq in Hc.
    unfold SFltb, SFcompare.
    destruct (Z.compare_spec e (-52)) as [H|H|H].
    + destruct (PosDef.Pos.compare_cont Eq m 4503599627370496) eqn:Ecmp;
        [exfalso | reflexivity | exfalso];
        pose proof (Pos.compare_cont_spec m 4503599627370496 Eq) as Hs;
        rewrite Ecmp in Hs;
        destruct (Pos.compare_spec m 4503599627370496) as [H'|H'|H'];
        try discriminate;
        apply (above_one_minus_ulp m e); try exact Hlt; lia.
    + reflexivity.
    + exfalso. apply (above_one_minus_ulp m e); [lia| |exact Hlt].
      pose proof (digits2_pos_lower m) as Hl.
      assert (Hd : Zpos (digits2_pos m) = 53%Z) by (clear Hl Hlt; lia).
      rewrite Hd in Hl. exact Hl.
Qed.

(** C8: for every watts and every integer year, before 2025 as after, the
    CapEx estimator takes the power [1.1 ** (year - 2025)] of the unclamped
    offset, the ratio [0.5 * power], the non-compute cost
    [compute_cost * ratio] and the total [compute_cost + non_compute_cost].
    For a year before 2025, with a [pow] accurate to within one unit in the
    last place of its result, the ratio of every returned CapEx is below
    0.5. *)
Theorem capex_non_compute_ratio (float_pow : float -> Z -> result float)
  (watts : float) (year : Z) :
  exists wpu cpu,
    power_efficiency year = Ok wpu /\
    cost_efficiency year = Ok cpu /\
    calculate_capex float_pow watts year =
    (p <- float_pow 1.1 (year - 2025)%Z ;;
     let compute_cost := watts / wpu * cpu in
     let non_compute_ratio := 0.5 * p in
     let non_compute_cost := compute_cost * non_compute_ratio in
     let total := compute_cost + non_compute_cost in
     cost_per_watt <- truediv total watts ;;
     Ok {| total_capex := total;
           compute_capex := compute_cost;
           non_compute_capex := non_compute_cost;
           cost_per_h100e := cpu;
           capex_per_watt := cost_per_watt |}) /\
    (forall q,
        (year < 2025)%Z ->
        exact_pow 1.1 (year - 2025)%Z = Some q ->
        (forall p, float_pow 1.1 (year - 2025)%Z = Ok p -> within_one_ulp q p = true) ->
        forall c,
          calculate_capex float_pow watts year = Ok c ->
          exists p,
            float_pow 1.1 (year - 2025)%Z = Ok p /\
            flt (0.5 * p) 0.5 /\
            compute_capex c = watts / wpu * cpu /\
            non_compute_capex c = compute_capex c * (0.5 * p) /\
            total_capex c = compute_capex c + non_compute_capex c).
Proof.
  exists (decay_curve 1000 year), (decay_curve 24000 year).
  split; [apply power_efficiency_curve|].
  split; [apply cost_efficiency_curve|].
  split; [apply calculate_capex_eq|].
  intros q Hy Hq Hacc c. rewrite calculate_capex_eq.
  destruct (float_pow 1.1 (year - 2025)%Z) as [p|] eqn:Hp; [|discriminate].
  cbn [bind]. unfold truediv.
  match goal with |- context [if ?b then _ else _] => destruct b end;
    [discriminate|].
  cbn [bind]. intros [= <-]. exists p. split; [reflexivity|].
  split; [|repeat split].
  apply fmul_half_lt. apply (within_one_ulp_below_one q).
  - apply (exact_pow_negative (year - 2025)); [lia | exact Hq].
  - now apply Hacc.
Qed.

Lemma capex_non_compute_ratio_witness :
  exists c,
    calculate_capex float_pow_model 100e9 2020 = Ok c /\
    non_compute_capex c = compute_capex c * (0.5 * 0.62092132305915493) /\
    total_capex c = compute_capex c + non_compute_capex c /\
    flt (0.5 * 0.62092132305915493) 0.5.
Proof.
  assert (Hp : float_pow_model 1.1 (2020 - 2025)%Z = Ok 0.62092132305915493)
    by (vm_compute; reflexivity).
  assert (Hc : exists c, calculate_capex float_pow_model 100e9 2020 = Ok c)
    by (eexists; vm_compute; reflexivity).
  destruct Hc as [c Hc]. exists c. split; [exact Hc|].
  destruct (capex_non_compute_ratio float_pow_model 100e9 2020)
    as (wpu & cpu & _ & _ & _ & Hlt).
  destruct (Hlt ((inject_Z 4953959590107546 * 2 ^ (-52)) ^ (-5))%Q) with (c := c)
    as (p & Hp' & Hhalf & _ & Hn & Ht).
  - lia.
  - unfold exact_pow. rewrite Prim2SF_1_1. reflexivity.
  - intros p Hp'. rewrite Hp in Hp'. injection Hp' as <-. vm_compute. reflexivity.
  - exact Hc.
  - rewrite Hp in Hp'. injection Hp' as <-.
    split; [exact Hn|]. split; [exact Ht | exact Hhalf].
Defined.

Local Open Scope string_scope.
Local Open Scope float_scope.

(** * Further properties of the pipeline *)

(** ** Transitivity of the strict order on floats *)

Lemma SFltb_trans (x y z : spec_float) :
  SFltb x y = true -> SFltb y z = true -> SFltb x z = true.
Proof.
  unfold SFltb.
  destruct x as [sx|sx| |sx mx ex], y as [sy|sy| |sy my ey], z as [sz|sz| |sz mz ez];
    try destruct sx; try destruct sy; try destruct sz; cbn;
    try discriminate; try reflexivity;
    intros H1 H2; cmp_cases; subst; cbn in *;
    try discriminate; try reflexivity; try lia.
Qed.

Lemma ltb_trans (x y z : float) :
  (x <? y) = true -> (y <? z) = true -> (x <? z) = true.
Proof. rewrite !ltb_spec. apply SFltb_trans. Qed.

(** ** Bounds and saturation of the curves *)

Lemma growth_curve_ge_one year : fle 1 (growth_curve year).
Proof.
  destruct (Z.le_gt_cases year 2025) as [H|H].
  - destruct (Z.le_gt_cases year 2024) as [H'|H'].
    + unfold growth_curve. rewrite curve_base by lia. reflexivity.
    + replace year with 2025%Z by lia. vm_compute. reflexivity.
  - unfold fle. apply (leb_trans 1 (growth_curve 2025)); [vm_compute; reflexivity|].
    apply (chain_increasing growth_curve 2025 growth_curve_step); lia.
Qed.

Lemma decay_curve_le_base_1000 year : fle (decay_curve 1000 year) 1000.
Proof.
  destruct (Z.le_gt_cases year 2025) as [H|H].
  - unfold decay_curve. rewrite curve_base by lia. reflexivity.
  - change 1000 with (decay_curve 1000 2025) at 2.
    apply (chain_decreasing (decay_curve 1000) 2025 decay_curve_step_1000); lia.
Qed.

Lemma decay_curve_le_base_24000 year : fle (decay_curve 24000 year) 24000.
Proof.
  destruct (Z.le_gt_cases year 2025) as [H|H].
  - unfold decay_curve. rewrite curve_base by lia. reflexivity.
  - change 24000 with (decay_curve 24000 2025) at 2.
    apply (chain_decreasing (decay_curve 24000) 2025 decay_curve_step_24000); lia.
Qed.

Lemma positive_finite_pos v : positive_finite v = true -> flt 0 v.
Proof. unfold positive_finite, flt. intros H. apply andb_true_iff in H. tauto. Qed.

(** X1: for every integer year the three curves stay within their starting
    constants: the density is at least 1.0, and the power and cost per unit
    are returned (no [ZeroDivisionError]), strictly positive and at most
    1000.0 and 24000.0. *)
Theorem curves_bounded (year : Z) :
  fle 1 (moores_law year) /\
  exists p c,
    power_efficiency year = Ok p /\ cost_efficiency year = Ok c /\
    flt 0 p /\ fle p 1000 /\ flt 0 c /\ fle c 24000.
Proof.
  split.
  - rewrite moores_law_curve. apply growth_curve_ge_one.
  - exists (decay_curve 1000 year), (decay_curve 24000 year).
    rewrite power_efficiency_curve, cost_efficiency_curve.
    repeat split.
    + apply positive_finite_pos, decay_curve_positive_1000.
    + apply decay_curve_le_base_1000.
    + apply positive_finite_pos, decay_curve_positive_24000.
    + apply decay_curve_le_base_24000.
Qed.

Lemma growth_curve_saturated year :
  (5203 <= year)%Z -> growth_curve year = infinity.
Proof.
  intros H. apply Leibniz.eqb_spec.
  apply (curve_tail growth_step growth_f 2024 5203 1
           (fun v => Leibniz.eqb v infinity) 1); try assumption.
  - intros; apply growth_step_late; lia.
  - lia.
  - vm_compute. reflexivity.
  - vm_compute. reflexivity.
Qed.

(** X2: the curves saturate.  The density is finite through 5202 and
    [infinity] for every year from 5203 on; the power per unit is, for every
    year from 6137 on (the cost per unit: from 6154 on), the subnormal
    [3 * 2^-1074], at which dividing by 1.2 rounds back to the same value:
    the decay never reaches zero. *)
Theorem curves_saturate :
  flt (moores_law 5202) infinity /\
  (forall year, (5203 <= year)%Z -> moores_law year = infinity) /\
  (forall year, (6137 <= year)%Z -> power_efficiency year = Ok 0x3p-1074) /\
  (forall year, (6154 <= year)%Z -> cost_efficiency year = Ok 0x3p-1074) /\
  0x3p-1074 / 1.2 = 0x3p-1074.
Proof.
  split; [vm_compute; reflexivity|].
  split; [intros year H; rewrite moores_law_curve; now apply growth_curve_saturated|].
  split; [intros year H; rewrite power_efficiency_curve;
          now rewrite decay_curve_stuck_1000|].
  split; [intros year H; rewrite cost_efficiency_curve;
          now rewrite decay_curve_stuck_24000|].
  vm_compute. reflexivity.
Qed.

Lemma curves_saturate_witness :
  moores_law 9999 = infinity /\ power_efficiency 9999 = Ok 0x3p-1074 /\
  cost_efficiency 9999 = Ok 0x3p-1074.
Proof.
  destruct curves_saturate as (_ & Hm & Hp & Hc & _).
  split; [apply Hm; lia|]. split; [apply Hp; lia | apply Hc; lia].
Defined.

(** ** Unit conversion *)

(** X3: the unit conversion returns for every watts (zero, negative, infinite
    or NaN included) and every year, because the power per unit is never
    zero: the unit count is [watts / power_efficiency(year)], the throughput
    per unit [2e15 * moores_law(year)] and the total their product. *)
Theorem watts_to_h100e_total (watts : float) (year : Z) :
  exists c p,
    watts_to_h100e watts year = Ok c /\
    power_efficiency year = Ok p /\
    watts_per_h100e c = p /\
    h100e_count c = watts / p /\
    flops_per_h100e c = H100_FLOPS * moores_law year /\
    total_flops c = h100e_count c * flops_per_h100e c.
Proof.
  rewrite watts_to_h100e_eq, power_efficiency_curve.
  do 2 eexists. repeat split; reflexivity.
Qed.

(** ** How the runner fails *)

(** X4: the runner's failures, completely.  For every watts, year and mix:
    if the power [1.1 ** (year - 2025)] raises, the runner raises the same
    exception; if it returns and watts is a zero, the runner raises
    [ZeroDivisionError]; otherwise the runner returns a scenario.  The
    energy mix never makes it fail. *)
Theorem run_scenario_failures (float_pow : float -> Z -> result float)
  (watts : float) (year : Z) (energy_mix : EnergyMix) :
  (forall e, float_pow 1.1 (year - 2025)%Z = Raise e ->
             run_scenario float_pow watts year energy_mix = Raise e) /\
  (forall p, float_pow 1.1 (year - 2025)%Z = Ok p -> feq watts 0 ->
             run_scenario float_pow watts year energy_mix = Raise ZeroDivisionError) /\
  (forall p, float_pow 1.1 (year - 2025)%Z = Ok p -> (watts =? 0) = false ->
             exists s, run_scenario float_pow watts year energy_mix = Ok s).
Proof.
  split; [|split].
  - intros e He. unfold run_scenario.
    rewrite normalize_mix_eq, watts_to_h100e_eq, calculate_capex_eq, He. reflexivity.
  - intros p Hp Hw. unfold run_scenario.
    rewrite normalize_mix_eq, watts_to_h100e_eq, calculate_capex_eq, Hp.
    cbn [bind]. unfold truediv at 1. unfold feq in Hw. rewrite Hw. reflexivity.
  - intros p Hp Hw.
    destruct (run_scenario_ok float_pow watts year energy_mix p Hw Hp) as (s & Hs & _).
    now exists s.
Qed.

Lemma run_scenario_failures_witness :
  run_scenario float_pow_model 0 2030 [("solar", 0.3); ("gas", 0.7)]
    = Raise ZeroDivisionError /\
  run_scenario float_pow_model neg_zero 2030 [("solar", 0.3); ("gas", 0.7)]
    = Raise ZeroDivisionError /\
  exists s, run_scenario float_pow_model 100e9 2030 [] = Ok s.
Proof.
  split; [|split].
  - apply (proj1 (proj2 (run_scenario_failures float_pow_model 0 2030 _))
             1.6105100000000006); vm_compute; reflexivity.
  - apply (proj1 (proj2 (run_scenario_failures float_pow_model neg_zero 2030 _))
             1.6105100000000006); vm_compute; reflexivity.
  - apply (proj2 (proj2 (run_scenario_failures float_pow_model 100e9 2030 []))
             1.6105100000000006); vm_compute; reflexivity.
Defined.

(** ** Normalisation of the mix *)

Lemma map_fst_div (d : EnergyMix) (t : float) :
  map fst (map (fun kv : string * float => (fst kv, snd kv / t)) d) = map fst d.
Proof. rewrite map_map. reflexivity. Qed.

(** X5: normalisation never raises and keeps the keys of the mix, in their
    order; when the sum of the shares is greater than zero every share is
    divided by it, and otherwise (a zero, negative or NaN sum, or an empty
    mix) the mix is returned as it is. *)
Theorem normalize_mix_keeps_keys (energy_mix : EnergyMix) :
  exists mix',
    normalize_mix energy_mix = Ok mix' /\
    map fst mix' = map fst energy_mix /\
    (flt 0 (dict_sum energy_mix) ->
     map snd mix' = map (fun kv => snd kv / dict_sum energy_mix) energy_mix) /\
    ((0 <? dict_sum energy_mix) = false -> mix' = energy_mix).
Proof.
  rewrite normalize_mix_eq. eexists. split; [reflexivity|].
  destruct (0 <? dict_sum energy_mix) eqn:E.
  - split; [apply map_fst_div|]. split; [|discriminate].
    intros _. rewrite map_map. reflexivity.
  - split; [reflexivity|]. split; [unfold flt; congruence | reflexivity].
Qed.

Lemma normalize_mix_keeps_keys_witness :
  normalize_mix [("solar", 3); ("gas", 1)] = Ok [("solar", 0.75); ("gas", 0.25)] /\
  normalize_mix [("solar", 1); ("gas", -1)] = Ok [("solar", 1); ("gas", -1)] /\
  normalize_mix [("solar", nan)] = Ok [("solar", nan)].
Proof.
  split; [|split].
  - destruct (normalize_mix_keeps_keys [("solar", 3); ("gas", 1)])
      as (m & Hm & _). rewrite Hm. vm_compute in Hm. injection Hm as <-. reflexivity.
  - destruct (normalize_mix_keeps_keys [("solar", 1); ("gas", -1)])
      as (m & Hm & _ & _ & Hid). rewrite Hm, Hid; reflexivity.
  - destruct (normalize_mix_keeps_keys [("solar", nan)])
      as (m & Hm & _ & _ & Hid). rewrite Hm, Hid; reflexivity.
Defined.

(** A non-negative value divided by a positive one is not negative (and not
    a NaN), provided the dividend is finite. *)
Lemma fdiv_nonneg_pos (a b : float) :
  (0 <=? a) = true -> is_finite a = true -> (0 <? b) = true ->
  (0 <=? a / b) = true.
Proof.
  rewrite is_finite_spec, ltb_spec, !leb_spec, div_spec, Prim2SF_zero.
  intros Ha Hf Hb.
  destruct (Prim2SF a) as [sa|sa| |sa ma ea]; try discriminate Hf;
    destruct (Prim2SF b) as [sb|sb| |sb mb eb]; try discriminate Hb;
    destruct sb; try discriminate Hb.
  - destruct sa; reflexivity.
  - destruct sa; reflexivity.
  - destruct sa; [discriminate Ha | reflexivity].
  - destruct sa; [discriminate Ha|].
    unfold SF64div, SFdiv.
    pose proof (SFdiv_core_binary_nonneg ma ea mb eb) as Hq.
    destruct (SFdiv_core_binary prec emax (Zpos ma) ea (Zpos mb) eb) as [[q e'] l].
    cbn [fst] in Hq.
    pose proof (binary_round_aux_nonneg (xorb false false) q e' l Hq) as Hs.
    destruct (binary_round_aux prec emax (xorb false false) q e' l) as [s|s| |s m e];
      cbn in Hs; try contradiction; subst; reflexivity.
Qed.

(** X6: normalisation keeps finite non-negative shares non-negative: no
    share of the normalised mix is negative or NaN. *)
Theorem normalize_mix_nonnegative (energy_mix mix' : EnergyMix) :
  Forall (fun kv => fle 0 (snd kv) /\ is_finite (snd kv) = true) energy_mix ->
  normalize_mix energy_mix = Ok mix' ->
  Forall (fun kv => fle 0 (snd kv)) mix'.
Proof.
  intros Hall. rewrite normalize_mix_eq. intros [= <-].
  destruct (0 <? dict_sum energy_mix) eqn:E.
  - apply Forall_map. eapply Forall_impl; [|exact Hall].
    intros kv [Hv Hf]. cbn [snd]. now apply fdiv_nonneg_pos.
  - eapply Forall_impl; [|exact Hall]. intros kv [H _]. exact H.
Qed.

Lemma normalize_mix_nonnegative_witness :
  Forall (fun kv => fle 0 (snd kv)) [("solar", 0.75); ("gas", 0.25)].
Proof.
  apply (normalize_mix_nonnegative [("solar", 3); ("gas", 1)]).
  - repeat constructor.
  - vm_compute. reflexivity.
Defined.

(** ** The infrastructure estimator and the keys of the mix *)

Lemma dict_get_app_other (d1 d2 : EnergyMix) (k key : string) (v default : float) :
  k <> key ->
  dict_get (d1 ++ (k, v) :: d2)%list key default = dict_get (d1 ++ d2)%list key default.
Proof.
  intros Hk. induction d1 as [|[k1 v1] d1 IH]; cbn.
  - destruct (String.eqb_spec k key) as [E|E]; [contradiction | reflexivity].
  - destruct (String.eqb k1 key); [reflexivity | exact IH].
Qed.

(** X7: the infrastructure estimator reads the mix only under the keys
    [solar] and [gas]: an entry under any other name, wherever it stands in
    the mix, changes nothing in its result. *)
Theorem infrastructure_ignores_other_sources (watts : float) (mix1 mix2 : EnergyMix)
  (k : string) (v : float) :
  k <> "solar" -> k <> "gas" ->
  calculate_infrastructure watts (mix1 ++ (k, v) :: mix2)%list =
  calculate_infrastructure watts (mix1 ++ mix2)%list.
Proof.
  intros Hs Hg. rewrite !calculate_infrastructure_eq.
  now rewrite !(dict_get_app_other mix1 mix2 k "solar" v 0 Hs),
              !(dict_get_app_other mix1 mix2 k "gas" v 0 Hg).
Qed.

Lemma infrastructure_ignores_other_sources_witness :
  calculate_infrastructure 1e9 [("solar", 0.5); ("wind", 0.25); ("gas", 0.25)] =
  calculate_infrastructure 1e9 [("solar", 0.5); ("gas", 0.25)].
Proof.
  apply (infrastructure_ignores_other_sources 1e9 [("solar", 0.5)] [("gas", 0.25)]
           "wind" 0.25); discriminate.
Defined.

Lemma dict_get_missing (d : EnergyMix) (key : string) (default : float) :
  ~ In key (map fst d) -> dict_get d key default = default.
Proof.
  induction d as [|[k v] d IH]; cbn; intros H.
  - reflexivity.
  - destruct (String.eqb_spec k key) as [E|E]; [tauto | apply IH; tauto].
Qed.

(** X8: a source missing from the mix counts as a zero share.  For a finite
    megawatt figure, a mix without the key [solar] gives zero PV modules,
    batteries and solar capacity, and a mix without the key [gas] gives zero
    turbines and gas megawatts. *)
Theorem missing_source_no_equipment (watts : float) (energy_mix : EnergyMix)
  (i : Infrastructure) :
  calculate_infrastructure watts energy_mix = Ok i ->
  is_finite (total_mw i) = true ->
  (~ In "solar" (map fst energy_mix) ->
   feq (pv_modules i) 0 /\ feq (batteries_mwh i) 0 /\ feq (solar_mw_capacity i) 0) /\
  (~ In "gas" (map fst energy_mix) ->
   feq (turbines i) 0 /\ feq (gas_mw i) 0).
Proof.
  rewrite calculate_infrastructure_eq. intros [= <-].
  cbn [total_mw pv_modules batteries_mwh solar_mw_capacity turbines gas_mw].
  intros Hfin. split; intros Hk; rewrite (dict_get_missing _ _ _ Hk).
  - assert (H1 : feq (watts / 1e6 * 0) 0) by (apply fmul_zero_r; [exact Hfin | reflexivity]).
    assert (H2 : feq (watts / 1e6 * 0 * 4) 0) by (apply fmul_zero_l; [exact H1 | reflexivity]).
    repeat split; try exact H2; apply fmul_zero_l; try exact H2; reflexivity.
  - assert (H1 : feq (watts / 1e6 * 0) 0) by (apply fmul_zero_r; [exact Hfin | reflexivity]).
    split; [apply fmul_zero_l; [exact H1 | reflexivity] | exact H1].
Qed.

Lemma missing_source_no_equipment_witness :
  exists i,
    calculate_infrastructure 1e9 [("gas", 1.0)] = Ok i /\
    feq (pv_modules i) 0 /\ feq (batteries_mwh i) 0 /\ turbines i = 1000.
Proof.
  eexists. split; [reflexivity|].
  destruct (missing_source_no_equipment 1e9 [("gas", 1.0)] _ eq_refl) as [Hs _].
  - reflexivity.
  - destruct Hs as (H1 & H2 & _).
    + cbn. intros [H|[]]. discriminate H.
    + split; [exact H1|]. split; [exact H2|]. vm_compute. reflexivity.
Defined.

(** ** The scenario as a whole *)

(** X9: a returned scenario is consistent across its records: it echoes the
    watts and the year, keeps the keys of the mix, prices the unit count of
    its compute record ([compute_capex = h100e_count * cost_per_h100e]),
    adds up ([total = compute + non-compute], [capex_per_watt = total /
    watts]), sizes the grid from the same watts, and takes its global
    fractions from its own CapEx and infrastructure records. *)
Theorem scenario_consistent (float_pow : float -> Z -> result float)
  (watts : float) (year : Z) (energy_mix : EnergyMix) (s : Scenario) :
  run_scenario float_pow watts year energy_mix = Ok s ->
  s_watts s = watts /\ s_year s = year /\
  map fst (s_energy_mix s) = map fst energy_mix /\
  compute_capex (s_capex s) = h100e_count (s_compute s) * cost_per_h100e (s_capex s) /\
  total_capex (s_capex s) = compute_capex (s_capex s) + non_compute_capex (s_capex s) /\
  capex_per_watt (s_capex s) = total_capex (s_capex s) / watts /\
  total_mw (s_infrastructure s) = watts / 1e6 /\
  electricity_fraction (s_global_fractions s) = watts * 365.25 * 24 / 35.2e12 /\
  gdp_fraction (s_global_fractions s) = total_capex (s_capex s) / 111e12 /\
  transformer_fraction (s_global_fractions s) = transformers (s_infrastructure s) / 10000 /\
  battery_fraction (s_global_fractions s) = batteries_mwh (s_infrastructure s) / 500000.
Proof.
  intros Hs. apply run_scenario_inv in Hs.
  destruct s as [w y m c x i t g]. cbn [s_watts s_year s_energy_mix s_compute
    s_capex s_infrastructure s_tokens s_global_fractions] in *.
  destruct Hs as (Hw & Hy & Hm & Hc & Hx & Hi & _ & Hg).
  rewrite watts_to_h100e_eq in Hc. injection Hc as <-.
  rewrite calculate_capex_eq in Hx.
  destruct (float_pow 1.1 (year - 2025)%Z) as [p|]; [|discriminate]. cbn [bind] in Hx.
  unfold truediv in Hx.
  destruct (watts =? 0); [discriminate|]. cbn [bind] in Hx. injection Hx as <-.
  rewrite calculate_infrastructure_eq in Hi. injection Hi as <-.
  injection Hg as <-.
  assert (Hk : map fst m = map fst energy_mix).
  { rewrite normalize_mix_eq in Hm. injection Hm as <-.
    destruct (0 <? dict_sum energy_mix); [apply map_fst_div | reflexivity]. }
  cbn. repeat split; try assumption; reflexivity.
Qed.

Lemma scenario_consistent_witness :
  exists s,
    run_scenario float_pow_model 100e9 2030 [("solar", 0.3); ("gas", 0.7)] = Ok s /\
    s_watts s = 100e9 /\
    compute_capex (s_capex s) = h100e_count (s_compute s) * cost_per_h100e (s_capex s) /\
    total_mw (s_infrastructure s) = 100000.
Proof.
  destruct (run_scenario_ok float_pow_model 100e9 2030 [("solar", 0.3); ("gas", 0.7)]
              1.6105100000000006) as (s & Hs & _);
    [vm_compute; reflexivity | vm_compute; reflexivity |].
  exists s. split; [exact Hs|].
  destruct (scenario_consistent float_pow_model _ _ _ s Hs)
    as (Hw & _ & _ & Hc & _ & _ & Hmw & _).
  split; [exact Hw|]. split; [exact Hc|]. rewrite Hmw. vm_compute. reflexivity.
Defined.

(** ** The scenario matrix of analysis.py *)

(** A loop whose body only appends rows appends the rows of every pass: their
    keys run through the passes in order, and what holds of each pass's rows
    holds of all. *)
Lemma for_each_appends {A B K : Type} (l : list A)
  (body : A -> list B -> result (list B)) (key : B -> K) (G : A -> list K)
  (T : B -> Prop) :
  (forall x, In x l -> forall acc, exists ys,
        body x acc = Ok (acc ++ ys)%list /\ map key ys = G x /\ Forall T ys) ->
  forall acc, exists ys,
    for_each l body acc = Ok (acc ++ ys)%list /\
    map key ys = flat_map G l /\ Forall T ys.
Proof.
  induction l as [|x l IH]; intros Hbody acc; cbn [for_each flat_map].
  - exists []. rewrite app_nil_r. repeat split. constructor.
  - destruct (Hbody x (or_introl eq_refl) acc) as (ys1 & H1 & Hk1 & HT1).
    rewrite H1. cbn [bind].
    destruct (IH (fun y Hy => Hbody y (or_intror Hy)) (acc ++ ys1)%list)
      as (ys2 & H2 & Hk2 & HT2).
    exists (ys1 ++ ys2)%list. rewrite H2, app_assoc, map_app, Hk1, Hk2.
    repeat split. apply Forall_app. now split.
Qed.

(** The rows of the matrix, under the assumption that the power [1.1 ** n]
    returns for the four offsets of the years 2025, 2030, 2035 and 2040. *)
Lemma scenario_matrix_ok (float_pow : float -> Z -> result float)
  (p0 p5 p10 p15 : float) :
  float_pow 1.1 0%Z = Ok p0 -> float_pow 1.1 5%Z = Ok p5 ->
  float_pow 1.1 10%Z = Ok p10 -> float_pow 1.1 15%Z = Ok p15 ->
  exists rows,
    create_scenario_matrix float_pow = Ok rows /\
    map row_key rows = matrix_keys /\
    Forall row_grid_ok rows.
Proof.
  intros H0 H5 H10 H15.
  destruct (for_each_appends power_levels_gw
              (fun power_gw results =>
                 for_each matrix_years
                   (fun year results =>
                      for_each energy_mixes
                        (fun item results =>
                           let '(mix_name, energy_mix) := item in
                           scenario <-
                             run_scenario float_pow (float_of_int power_gw * 1e9)
                               year energy_mix ;;
                           Ok (results ++
                               [{| Power_GW := power_gw;
                                   Year := year;
                                   Energy_Mix := mix_name;
                                   H100e_Count := h100e_count (s_compute scenario);
                                   Total_FLOPS := total_flops (s_compute scenario);
                                   CapEx_USD := total_capex (s_capex scenario);
                                   CapEx_per_Watt := capex_per_watt (s_capex scenario);
                                   Pct_World_Electricity :=
                                     electricity_fraction (s_global_fractions scenario)
                                     * 100;
                                   Pct_World_GDP :=
                                     gdp_fraction (s_global_fractions scenario) * 100;
                                   Transformers_Needed :=
                                     transformers (s_infrastructure scenario);
                                   PV_Modules_Needed :=
                                     pv_modules (s_infrastructure scenario);
                                   Turbines_Needed := turbines (s_infrastructure scenario);
                                   Annual_Tokens := annual_tokens (s_tokens scenario)
                                 |}])%list)
                        results)
                   results)
              row_key
              (fun power_gw =>
                 flat_map (fun year =>
                   flat_map (fun item : string * EnergyMix =>
                               [(power_gw, year, fst item)]) energy_mixes)
                   matrix_years)
              row_grid_ok) with (acc := @nil MatrixRow) as (rows & Hrows & Hkeys & HT).
  - intros power_gw Hpower acc.
    apply for_each_appends. intros year Hyear acc'.
    apply for_each_appends. intros [mix_name energy_mix] _ acc''.
    assert (Hpow : exists p, float_pow 1.1 (year - 2025)%Z = Ok p).
    { cbn in Hyear. destruct Hyear as [<-|[<-|[<-|[<-|[]]]]]; eauto. }
    destruct Hpow as [p Hp].
    assert (Hw : (float_of_int power_gw * 1e9 =? 0) = false).
    { cbn in Hpower.
      destruct Hpower as [<-|[<-|[<-|[<-|[<-|[<-|[]]]]]]]; vm_compute; reflexivity. }
    destruct (run_scenario_ok float_pow _ year energy_mix p Hw Hp)
      as (s & Hs & _).
    rewrite Hs. cbn [bind]. eexists. split; [reflexivity|].
    split; [reflexivity|]. constructor; [|constructor].
    apply run_scenario_inv in Hs.
    destruct s as [w y m c x i t g]. cbn [s_watts s_year s_energy_mix s_compute
      s_capex s_infrastructure s_tokens s_global_fractions] in *.
    destruct Hs as (_ & _ & _ & _ & _ & Hi & _ & Hg).
    rewrite calculate_infrastructure_eq in Hi. injection Hi as <-.
    injection Hg as <-.
    unfold row_grid_ok.
    cbn [Transformers_Needed Pct_World_Electricity Power_GW transformers
         electricity_fraction].
    split; [|reflexivity].
    cbn in Hpower.
    destruct Hpower as [<-|[<-|[<-|[<-|[<-|[<-|[]]]]]]]; vm_compute; reflexivity.
  - exists rows. split; [exact Hrows|]. split; [exact Hkeys | exact HT].
Qed.

(** X10: [create_scenario_matrix] (analysis.py) returns, whenever the power
    [1.1 ** n] returns for the four offsets 0, 5, 10 and 15, a data frame of
    96 rows, one per power level, year and mix in the order of the three
    nested loops; in every row the transformer count is 500 per gigawatt and
    the share of world electricity is fixed by the power level alone,
    whatever the year and the mix. *)
Theorem scenario_matrix_rows (float_pow : float -> Z -> result float)
  (p0 p5 p10 p15 : float) :
  float_pow 1.1 0%Z = Ok p0 -> float_pow 1.1 5%Z = Ok p5 ->
  float_pow 1.1 10%Z = Ok p10 -> float_pow 1.1 15%Z = Ok p15 ->
  exists rows,
    create_scenario_matrix float_pow = Ok rows /\
    List.length rows = 96%nat /\
    map row_key rows = matrix_keys /\
    Forall row_grid_ok rows.
Proof.
  intros H0 H5 H10 H15.
  destruct (scenario_matrix_ok float_pow p0 p5 p10 p15 H0 H5 H10 H15)
    as (rows & Hrows & Hkeys & HT).
  exists rows. split; [exact Hrows|].
  split; [|split; [exact Hkeys | exact HT]].
  rewrite <- (List.length_map row_key), Hkeys. reflexivity.
Qed.

Lemma scenario_matrix_rows_witness :
  exists rows,
    create_scenario_matrix float_pow_model = Ok rows /\
    List.length rows = 96%nat /\
    map row_key rows = matrix_keys /\
    Forall row_grid_ok rows.
Proof.
  apply (scenario_matrix_rows float_pow_model 1 1.6105100000000006
           2.5937424601000023 4.1772481694156562); vm_compute; reflexivity.
Defined.

(** ** The bottleneck analysis on the matrix *)

Lemma matrix_keys_power (k : Z * Z * string) :
  In k matrix_keys -> In (fst (fst k)) power_levels_gw.
Proof.
  unfold matrix_keys. intros H.
  apply in_flat_map in H. destruct H as (gw & Hgw & H).
  apply in_flat_map in H. destruct H as (y & _ & H).
  apply in_flat_map in H. destruct H as (item & _ & [<-|[]]). exact Hgw.
Qed.

Lemma row_above_world (r : MatrixRow) :
  In (Power_GW r) power_levels_gw -> row_grid_ok r ->
  flt 200 (Pct_World_Electricity r).
Proof.
  intros Hin [_ ->]. cbn in Hin.
  destruct Hin as [<-|[<-|[<-|[<-|[<-|[<-|[]]]]]]]; vm_compute; reflexivity.
Qed.

Lemma filter_all {A : Type} (f : A -> bool) (l : list A) :
  Forall (fun x => f x = true) l -> filter f l = l.
Proof.
  induction 1 as [|x l Hx _ IH]; cbn; [reflexivity|]. now rewrite Hx, IH.
Qed.

(** X11: on the matrix of [create_scenario_matrix] every row is above the
    world's electricity as the code counts it: [Pct_World_Electricity] is
    more than 200 in every row, the smallest power level (10 GW) included,
    because the annual watt-hours are divided by [WORLD_ELECTRICITY_2024 =
    35.2e12].  So the filter [Pct_World_Electricity > 100] of
    [analyze_bottlenecks] selects every row, and its threshold search, which
    needs a row below 100 followed by one above, finds no crossing. *)
Theorem matrix_above_world_electricity (float_pow : float -> Z -> result float)
  (p0 p5 p10 p15 : float) :
  float_pow 1.1 0%Z = Ok p0 -> float_pow 1.1 5%Z = Ok p5 ->
  float_pow 1.1 10%Z = Ok p10 -> float_pow 1.1 15%Z = Ok p15 ->
  exists rows,
    create_scenario_matrix float_pow = Ok rows /\
    Forall (fun row => flt 200 (Pct_World_Electricity row)) rows /\
    Forall (fun row => (Pct_World_Electricity row <? 100) = false) rows /\
    electricity_bottleneck rows = rows.
Proof.
  intros H0 H5 H10 H15.
  destruct (scenario_matrix_ok float_pow p0 p5 p10 p15 H0 H5 H10 H15)
    as (rows & Hrows & Hkeys & HT).
  exists rows. split; [exact Hrows|].
  assert (Habove : Forall (fun row => flt 200 (Pct_World_Electricity row)) rows).
  { rewrite Forall_forall in *. intros r Hr.
    apply row_above_world; [|now apply HT].
    apply (matrix_keys_power (row_key r)). rewrite <- Hkeys. now apply in_map. }
  split; [exact Habove|]. split.
  - eapply Forall_impl; [|exact Habove]. cbn. intros r Hr.
    destruct (Pct_World_Electricity r <? 100) eqn:E; [|reflexivity].
    unfold flt in Hr.
    assert (Habs : (200 <? 100) = true) by (eapply ltb_trans; eassumption).
    vm_compute in Habs. discriminate Habs.
  - unfold electricity_bottleneck. apply filter_all.
    eapply Forall_impl; [|exact Habove]. cbn. intros r Hr.
    unfold flt in Hr. eapply ltb_trans; [|exact Hr]. vm_compute. reflexivity.
Qed.

Lemma matrix_above_world_electricity_witness :
  exists rows,
    create_scenario_matrix float_pow_model = Ok rows /\
    Forall (fun row => flt 200 (Pct_World_Electricity row)) rows /\
    Forall (fun row => (Pct_World_Electricity row <? 100) = false) rows /\
    electricity_bottleneck rows = rows.
Proof.
  apply (matrix_above_world_electricity float_pow_model 1 1.6105100000000006
           2.5937424601000023 4.1772481694156562); vm_compute; reflexivity.
Defined.

(** ** Dividing by one *)

Local Open Scope Z_scope.

Lemma div_eucl_exact (q b : Z) : 0 < b -> Z.div_eucl (q * b) b = (q, 0).
Proof.
  intros Hb.
  pose proof (Z.div_mul q b ltac:(lia)) as Hq.
  pose proof (Z.mod_mul q b ltac:(lia)) as Hr.
  unfold Z.div, Z.modulo in Hq, Hr.
  destruct (Z.div_eucl (q * b) b) as [q' r']. now subst.
Qed.

Lemma SFdiv_core_one_normal (m : positive) (e : Z) :
  Zpos (digits2_pos m) = 53 -> e <> -1074 -> -1074 <= e ->
  SFdiv_core_binary prec emax (Zpos m) e 4503599627370496 (-52)
  = (Zpos m~0, e - 1, loc_Exact).
Proof.
  intros Hd Hne He. unfold SFdiv_core_binary.
  change (Zdigits2 (Zpos m)) with (Zpos (digits2_pos m)).
  change (Zdigits2 4503599627370496) with 53.
  rewrite fexp_eq, Hd.
  change (IntDef.Z.sub ?a ?b) with (a - b).
  change (IntDef.Z.add ?a ?b) with (a + b).
  change (IntDef.Z.min ?a ?b) with (Z.min a b).
  replace (Z.min (Z.max (53 + e - (53 + -52) - 53) (-1074)) (e - -52)) with (e - 1) by lia.
  replace (e - -52 - (e - 1)) with 53 by lia.
  change (IntDef.Z.shiftl (Zpos m) 53) with (Zpos (4503599627370496 * m~0)).
  rewrite Pos2Z.inj_mul, Z.mul_comm.
  change (IntDef.Z.div_eucl ?a ?b) with (Z.div_eucl a b).
  rewrite div_eucl_exact by reflexivity. reflexivity.
Qed.

Lemma SFdiv_core_one_bottom (m : positive) :
  Zpos (digits2_pos m) <= 53 ->
  SFdiv_core_binary prec emax (Zpos m) (-1074) 4503599627370496 (-52)
  = (Zpos m, -1074, loc_Exact).
Proof.
  intros Hd. unfold SFdiv_core_binary.
  change (Zdigits2 (Zpos m)) with (Zpos (digits2_pos m)).
  change (Zdigits2 4503599627370496) with 53.
  rewrite fexp_eq.
  change (IntDef.Z.sub ?a ?b) with (a - b).
  change (IntDef.Z.add ?a ?b) with (a + b).
  change (IntDef.Z.min ?a ?b) with (Z.min a b).
  replace (Z.min (Z.max (Z.pos (digits2_pos m) + -1074 - (53 + -52) - 53) (-1074))
             (-1074 - -52)) with (-1074) by lia.
  change (-1074 - -52 - -1074) with 52.
  change (IntDef.Z.shiftl (Zpos m) 52) with (Zpos (4503599627370496 * m)).
  rewrite Pos2Z.inj_mul, Z.mul_comm.
  change (IntDef.Z.div_eucl ?a ?b) with (Z.div_eucl a b).
  rewrite div_eucl_exact by reflexivity. reflexivity.
Qed.

Lemma shr_fexp_one_bit (m : positive) (e : Z) :
  Zpos (digits2_pos m) = 53 -> -1074 <= e - 1 ->
  shr_fexp prec emax (Zpos m~0) (e - 1) loc_Exact
  = ({| shr_m := Zpos m; shr_r := false; shr_s := false |}, e).
Proof.
  intros Hd He. unfold shr_fexp, Zdigits2. cbn [digits2_pos].
  change (IntDef.Z.add ?a ?b) with (a + b).
  rewrite fexp_eq, Pos2Z.inj_succ, Hd.
  change (IntDef.Z.sub ?a ?b) with (a - b).
  replace (Z.max (Z.succ 53 + (e - 1) - 53) (-1074) - (e - 1)) with 1 by lia.
  unfold shr. cbn [shr_record_of_loc iter_pos shr_1 orb].
  f_equal. lia.
Qed.

(** Rounding the exact quotient by one gives the dividend back. *)
Lemma SFdiv_one (s : bool) (m : positive) (e : Z) :
  valid_binary (S754_finite s m e) = true ->
  SFdiv prec emax (S754_finite s m e) (S754_finite false 4503599627370496 (-52))
  = S754_finite s m e.
Proof.
  intros Hv.
  unfold valid_binary, bounded, canonical_mantissa in Hv.
  apply andb_true_iff in Hv. destruct Hv as [Hc Hb].
  apply Z.eqb_eq in Hc. rewrite fexp_eq in Hc.
  change (IntDef.Z.leb e (IntDef.Z.sub emax prec)) with (e <=? 971) in Hb.
  unfold SFdiv. replace (xorb s false) with s by (now destruct s).
  destruct (Z.eq_dec e (-1074)) as [->|Hne].
  - rewrite SFdiv_core_one_bottom by lia.
    unfold binary_round_aux.
    rewrite shr_fexp_noshift by (rewrite fexp_eq; lia).
    cbn [shr_m loc_of_shr_record round_nearest_even].
    rewrite shr_fexp_noshift by (rewrite fexp_eq; lia).
    cbn [shr_m]. reflexivity.
  - assert (Hd : Zpos (digits2_pos m) = 53) by lia.
    rewrite SFdiv_core_one_normal by lia.
    unfold binary_round_aux.
    rewrite shr_fexp_one_bit by lia.
    cbn [shr_m loc_of_shr_record round_nearest_even].
    rewrite shr_fexp_noshift by (rewrite fexp_eq; lia).
    cbn [shr_m].
    change (IntDef.Z.leb e (IntDef.Z.sub emax prec)) with (e <=? 971).
    now rewrite Hb.
Qed.

Local Close Scope Z_scope.

(** Dividing any float by [1.0] returns it unchanged. *)
Lemma fdiv_one (x : float) : x / 1 = x.
Proof.
  apply Prim2SF_inj. rewrite div_spec, Prim2SF_one.
  pose proof (Prim2SF_valid x) as Hv.
  destruct (Prim2SF x) as [s|s| |s m e].
  - now destruct s.
  - now destruct s.
  - reflexivity.
  - now apply SFdiv_one.
Qed.

(** ** A mix that already sums to one *)

Lemma map_div_one (d : EnergyMix) :
  map (fun kv : string * float => (fst kv, snd kv / 1)) d = d.
Proof.
  induction d as [|[k v] d IH]; cbn.
  - reflexivity.
  - now rewrite fdiv_one, IH.
Qed.

(** X12: a mix whose shares sum to exactly 1.0 passes through normalisation
    unchanged, bit for bit (dividing a float by 1.0 is exact), so the runner
    stores the very mix it was given. *)
Theorem normalize_mix_unit_sum (float_pow : float -> Z -> result float)
  (watts : float) (year : Z) (energy_mix : EnergyMix) :
  dict_sum energy_mix = 1 ->
  normalize_mix energy_mix = Ok energy_mix /\
  (forall s, run_scenario float_pow watts year energy_mix = Ok s ->
             s_energy_mix s = energy_mix).
Proof.
  intros Hsum.
  assert (Hn : normalize_mix energy_mix = Ok energy_mix).
  { rewrite normalize_mix_eq, Hsum.
    change (0 <? 1) with true. cbn iota. now rewrite map_div_one. }
  split; [exact Hn|].
  intros s Hs. apply run_scenario_inv in Hs.
  destruct Hs as (_ & _ & Hm & _). rewrite Hn in Hm. now injection Hm as <-.
Qed.

Lemma normalize_mix_unit_sum_witness :
  normalize_mix [("solar", 0.7); ("gas", 0.3)] = Ok [("solar", 0.7); ("gas", 0.3)].
Proof.
  apply (normalize_mix_unit_sum float_pow_model 1e9 2030 [("solar", 0.7); ("gas", 0.3)]).
  vm_compute. reflexivity.
Defined.

(** ** Strict monotonicity, until the curves saturate *)

Lemma chain_strictly_decreasing (f : Z -> float) (y0 y_end : Z) :
  (forall y, (y0 <= y < y_end)%Z -> flt (f (y + 1)%Z) (f y)) ->
  forall y1 y2, (y0 <= y1)%Z -> (y1 < y2)%Z -> (y2 <= y_end)%Z -> flt (f y2) (f y1).
Proof.
  intros Hstep y1 y2 H1 H2.
  replace y2 with (y1 + 1 + Z.of_nat (Z.to_nat (y2 - y1 - 1)))%Z by lia.
  induction (Z.to_nat (y2 - y1 - 1)) as [|k IH]; intros H3.
  - rewrite Z.add_0_r. apply Hstep. lia.
  - replace (y1 + 1 + Z.of_nat (S k))%Z with (y1 + 1 + Z.of_nat k + 1)%Z in * by lia.
    unfold flt in *. eapply ltb_trans; [|apply IH; lia]. apply Hstep. lia.
Qed.

Lemma chain_strictly_increasing (f : Z -> float) (y0 y_end : Z) :
  (forall y, (y0 <= y < y_end)%Z -> flt (f y) (f (y + 1)%Z)) ->
  forall y1 y2, (y0 <= y1)%Z -> (y1 < y2)%Z -> (y2 <= y_end)%Z -> flt (f y1) (f y2).
Proof.
  intros Hstep y1 y2 H1 H2.
  replace y2 with (y1 + 1 + Z.of_nat (Z.to_nat (y2 - y1 - 1)))%Z by lia.
  induction (Z.to_nat (y2 - y1 - 1)) as [|k IH]; intros H3.
  - rewrite Z.add_0_r. apply Hstep. lia.
  - replace (y1 + 1 + Z.of_nat (S k))%Z with (y1 + 1 + Z.of_nat k + 1)%Z in * by lia.
    unfold flt in *. eapply ltb_trans; [apply IH; lia|]. apply Hstep. lia.
Qed.

Lemma growth_curve_strict_step y :
  (2024 <= y < 5203)%Z -> flt (growth_curve y) (growth_curve (y + 1)).
Proof.
  intros H. destruct (Z.le_gt_cases 2040 y) as [H'|H'].
  - unfold growth_curve at 2. rewrite curve_succ by lia.
    rewrite growth_step_late by lia.
    apply (curve_range growth_step growth_f 2024 2040 1
             (fun v => v <? growth_f v) (Z.to_nat 3162)).
    + intros; now apply growth_step_late.
    + lia.
    + vm_compute. reflexivity.
    + lia.
  - apply (years_check_sound 16 2024
             (fun y => growth_curve y <? growth_curve (y + 1))).
    + vm_compute. reflexivity.
    + lia.
Qed.

Lemma decay_curve_strict_step_1000 y :
  (2025 <= y < 6137)%Z -> flt (decay_curve 1000 (y + 1)) (decay_curve 1000 y).
Proof.
  intros H. destruct (Z.le_gt_cases 2040 y) as [H'|H'].
  - unfold decay_curve at 1. rewrite curve_succ by lia.
    rewrite decay_step_late by lia.
    apply (curve_range decay_step decay_f 2025 2040 1000
             (fun v => decay_f v <? v) (Z.to_nat 4096)).
    + intros; now apply decay_step_late.
    + lia.
    + vm_compute. reflexivity.
    + lia.
  - apply (years_check_sound 15 2025
             (fun y => decay_curve 1000 (y + 1) <? decay_curve 1000 y)).
    + vm_compute. reflexivity.
    + lia.
Qed.

Lemma decay_curve_strict_step_24000 y :
  (2025 <= y < 6154)%Z -> flt (decay_curve 24000 (y + 1)) (decay_curve 24000 y).
Proof.
  intros H. destruct (Z.le_gt_cases 2040 y) as [H'|H'].
  - unfold decay_curve at 1. rewrite curve_succ by lia.
    rewrite decay_step_late by lia.
    apply (curve_range decay_step decay_f 2025 2040 24000
             (fun v => decay_f v <? v) (Z.to_nat 4113)).
    + intros; now apply decay_step_late.
    + lia.
    + vm_compute. reflexivity.
    + lia.
  - apply (years_check_sound 15 2025
             (fun y => decay_curve 24000 (y + 1) <? decay_curve 24000 y)).
    + vm_compute. reflexivity.
    + lia.
Qed.

(** X13: until they saturate the curves are strictly monotone: the density
    strictly increases over the years 2024 to 5203, the power per unit
    strictly decreases over 2025 to 6137 and the cost per unit over 2025 to
    6154. *)
Theorem curves_strictly_monotone (year1 year2 : Z) :
  (year1 < year2)%Z ->
  ((2024 <= year1)%Z -> (year2 <= 5203)%Z ->
   flt (moores_law year1) (moores_law year2)) /\
  ((2025 <= year1)%Z -> (year2 <= 6137)%Z ->
   exists p1 p2, power_efficiency year1 = Ok p1 /\ power_efficiency year2 = Ok p2 /\
                 flt p2 p1) /\
  ((2025 <= year1)%Z -> (year2 <= 6154)%Z ->
   exists c1 c2, cost_efficiency year1 = Ok c1 /\ cost_efficiency year2 = Ok c2 /\
                 flt c2 c1).
Proof.
  intros Hlt. split; [|split]; intros H1 H2.
  - rewrite !moores_law_curve.
    now apply (chain_strictly_increasing growth_curve 2024 5203 growth_curve_strict_step).
  - exists (decay_curve 1000 year1), (decay_curve 1000 year2).
    rewrite !power_efficiency_curve. repeat split.
    now apply (chain_strictly_decreasing (decay_curve 1000) 2025 6137
                 decay_curve_strict_step_1000).
  - exists (decay_curve 24000 year1), (decay_curve 24000 year2).
    rewrite !cost_efficiency_curve. repeat split.
    now apply (chain_strictly_decreasing (decay_curve 24000) 2025 6154
                 decay_curve_strict_step_24000).
Qed.

Lemma curves_strictly_monotone_witness :
  flt (moores_law 2030) (moores_law 2040) /\
  exists p1 p2, power_efficiency 2030 = Ok p1 /\ power_efficiency 2040 = Ok p2 /\
                flt p2 p1.
Proof.
  destruct (curves_strictly_monotone 2030 2040) as (Hm & Hp & _); [lia|].
  split; [apply Hm; lia | apply Hp; lia].
Defined.
